(** * cloudflare-proxy: the reverse-proxy worker and its cookie rewriting

    A shallow embedding of the worker in [src/index.ts] (both revisions kept
    in that file) and of the template revision of the same worker, together
    with the properties the specification states about them.

    Conventions of the embedding.
    - A JavaScript string is a [string]: header values are byte strings, one
      code unit per byte, so a code unit is an [ascii].
    - [Headers] is the platform's header list: an ordered list of
      (name, value) entries whose names are compared case-insensitively.
    - [new URL(...)] is the platform's parser.  A URL is kept in parsed form
      (record [URL]); the getters the worker reads ([pathname], [search],
      [hostname], [origin]) are functions of that record.
    - [fetch] is the injected upstream capability.  The handlers run in a
      small monad [IO] that threads the capability and logs every request
      handed to it; a rejected [fetch] rejects the handler.
    - [new Response(body, init)] is the platform's constructor with the
      cases in which it throws or gives a null body; [headers.set] and
      [headers.append] store a value with the HTTP white space around it
      removed.  The names and values stored here come from a header list
      or from a parsed URL, and the status text given to the constructor
      from a response, so they pass the validation of [set], [append] and
      the constructor, which is not modelled.  [new Request] is a record
      builder. *)

From Stdlib Require Import String Ascii List Bool Arith ZArith Lia.
Import ListNotations.
Open Scope string_scope.

(* ================================================================== *)
(** * JavaScript string primitives used by the worker *)

Module JS.

(** [String.prototype.toLowerCase] on one code unit.  Only the ASCII
    capitals are mapped: the lower-cased text is used solely in comparisons
    with the ASCII literals ['domain='], ['samesite='], ['secure'] and
    ['set-cookie'], and no other code unit lower-cases to a letter of those
    literals. *)
Definition lower_char (c : ascii) : ascii :=
  let n := nat_of_ascii c in
  if ((65 <=? n) && (n <=? 90))%nat then ascii_of_nat (n + 32) else c.

Fixpoint toLowerCase (s : string) : string :=
  match s with
  | EmptyString => EmptyString
  | String c r => String (lower_char c) (toLowerCase r)
  end.

(** White space and line terminators removed by [String.prototype.trim]
    (those that fit a byte: TAB, LF, VT, FF, CR, SPACE, NBSP). *)
Definition is_ws (c : ascii) : bool :=
  let n := nat_of_ascii c in
  (((9 <=? n) && (n <=? 13)) || (n =? 32) || (n =? 160))%nat.

Fixpoint trimStart (s : string) : string :=
  match s with
  | EmptyString => EmptyString
  | String c r => if is_ws c then trimStart r else s
  end.

Fixpoint trimEnd (s : string) : string :=
  match s with
  | EmptyString => EmptyString
  | String c r =>
      match trimEnd r with
      | EmptyString => if is_ws c then EmptyString else String c EmptyString
      | r' => String c r'
      end
  end.

Definition trim (s : string) : string := trimEnd (trimStart s).

(** [s.split(sep)] for a one-character separator.  The empty string splits
    into one empty piece. *)
Fixpoint split (sep : ascii) (s : string) : list string :=
  match s with
  | EmptyString => [EmptyString]
  | String c r =>
      if Ascii.eqb c sep then EmptyString :: split sep r
      else match split sep r with
           | h :: t => String c h :: t
           | [] => [String c EmptyString]
           end
  end.

(** [parts.join(sep)]. *)
Fixpoint join (sep : string) (parts : list string) : string :=
  match parts with
  | [] => EmptyString
  | [x] => x
  | x :: rest => x ++ sep ++ join sep rest
  end.

(** [s.startsWith(p)]. *)
Fixpoint startsWith (s p : string) {struct p} : bool :=
  match p with
  | EmptyString => true
  | String a p' =>
      match s with
      | EmptyString => false
      | String b s' => Ascii.eqb a b && startsWith s' p'
      end
  end.

(** [s.replace(pat, '')] for a non-empty string pattern: the first
    occurrence of [pat] is removed, and [s] is returned unchanged when there
    is none. *)
Fixpoint removeFirst (s pat : string) : string :=
  match s with
  | EmptyString => EmptyString
  | String c r =>
      if startsWith s pat then substring (String.length pat)
                                         (String.length s - String.length pat) s
      else String c (removeFirst r pat)
  end.

(** Truthiness of a string: [!s] holds exactly for the empty string. *)
Definition truthy (s : string) : bool :=
  match s with EmptyString => false | _ => true end.

End JS.
Import JS.

(* ================================================================== *)
(** * URL objects *)

(** A parsed http(s) URL.  [query] is [None] when the URL has no [?]. *)
Record URL := mkURL {
  scheme   : string;            (* "http" or "https", without the colon *)
  hostname : string;
  port     : option string;     (* [None] for the scheme's default port *)
  pathname : string;
  query    : option string
}.

(** [url.search]: empty when the query is absent or empty, otherwise [?]
    followed by the query. *)
Definition search (u : URL) : string :=
  match query u with
  | None => ""
  | Some EmptyString => ""
  | Some q => "?" ++ q
  end.

(** [url.host]: the hostname, followed by [:port] when a port is kept. *)
Definition host (u : URL) : string :=
  match port u with
  | None => hostname u
  | Some p => hostname u ++ ":" ++ p
  end.

(** [url.origin]: scheme and host. *)
Definition origin (u : URL) : string := scheme u ++ "://" ++ host u.

(** [url.href], the serialization handed on when a request is forwarded
    as it is. *)
Definition href (u : URL) : string :=
  origin u ++ pathname u ++
  match query u with None => "" | Some q => "?" ++ q end.

(* ================================================================== *)
(** * The cookie rewrite: [modifyCookie] *)

Open Scope list_scope.

(** The template literal [`Domain=${url.hostname}`]. *)
Definition domainAttr (url : URL) : string :=
  ("Domain=" ++ hostname url)%string.

(** The three recognisers of the loop, on a trimmed segment. *)
Definition isDomainPart (seg : string) : bool :=
  startsWith (toLowerCase seg) "domain=".
Definition isSameSitePart (seg : string) : bool :=
  startsWith (toLowerCase seg) "samesite=".
Definition isSecurePart (seg : string) : bool :=
  String.eqb (toLowerCase seg) "secure".

(** The mutable locals of [modifyCookie]. *)
Record CookieState := mkCookieState {
  newCookieParts : list string;
  hasDomain      : bool;
  hasSameSite    : bool;
  hasSecure      : bool
}.

(** One iteration of the [for] loop over [cookieParts[i]], [i >= 1]. *)
Definition cookieStep (url : URL) (st : CookieState) (seg : string)
  : CookieState :=
  let part := toLowerCase seg in
  if startsWith part "domain=" then
    mkCookieState (newCookieParts st ++ [domainAttr url])
                  true (hasSameSite st) (hasSecure st)
  else if startsWith part "samesite=" then
    mkCookieState (newCookieParts st ++ ["SameSite=None"])
                  (hasDomain st) true (hasSecure st)
  else if String.eqb part "secure" then
    mkCookieState (newCookieParts st ++ ["Secure"])
                  (hasDomain st) (hasSameSite st) true
  else
    mkCookieState (newCookieParts st ++ [seg])
                  (hasDomain st) (hasSameSite st) (hasSecure st).

(** [cookie.split(';').map(part => part.trim())]. *)
Definition cookieParts (cookie : string) : list string :=
  map trim (split ";" cookie).

(** The array [newCookieParts] as it stands just before the final [join]. *)
Definition rewrittenParts (cookie : string) (url : URL) : list string :=
  let parts := cookieParts cookie in
  let mainPart := hd EmptyString parts in
  let st0 := mkCookieState [mainPart] false false false in
  let st := fold_left (cookieStep url) (tl parts) st0 in
  let p1 := if hasDomain st then newCookieParts st
            else newCookieParts st ++ [domainAttr url] in
  let p2 := if hasSameSite st then p1 else p1 ++ ["SameSite=None"] in
  let p3 := if hasSecure st then p2 else p2 ++ ["Secure"] in
  p3.

(** [modifyCookie(cookie, requestUrl)]; [None] is the [null] result. *)
Definition modifyCookie (cookie : string) (requestUrl : URL) : option string :=
  if negb (truthy cookie) then None
  else Some (join "; " (rewrittenParts cookie requestUrl)).


(* ================================================================== *)
(** * Header lists *)

Module Headers.

Definition t := list (string * string).

(** Header names are matched case-insensitively. *)
Definition sameName (a b : string) : bool :=
  String.eqb (toLowerCase a) (toLowerCase b).

Definition has (h : t) (name : string) : bool :=
  existsb (fun e => sameName (fst e) name) h.

(** [getAll(name)]: every value stored under [name], in order. *)
Definition getAll (h : t) (name : string) : list string :=
  map snd (filter (fun e => sameName (fst e) name) h).

(** [get(name)]: the values under [name] combined with a comma. *)
Definition get (h : t) (name : string) : option string :=
  match getAll h name with
  | [] => None
  | vs => Some (join ", " vs)
  end.

(** HTTP white space: TAB, LF, CR and SPACE. *)
Definition isHttpWs (c : ascii) : bool :=
  let n := nat_of_ascii c in
  ((n =? 9) || (n =? 10) || (n =? 13) || (n =? 32))%nat.

Fixpoint stripStart (s : string) : string :=
  match s with
  | EmptyString => EmptyString
  | String c r => if isHttpWs c then stripStart r else s
  end.

Fixpoint stripEnd (s : string) : string :=
  match s with
  | EmptyString => EmptyString
  | String c r =>
      match stripEnd r with
      | EmptyString => if isHttpWs c then EmptyString else String c EmptyString
      | r' => String c r'
      end
  end.

(** A value is stored without the HTTP white space that leads or trails
    it. *)
Definition normalize (value : string) : string :=
  stripEnd (stripStart value).

Definition append (h : t) (name value : string) : t :=
  h ++ [(name, normalize value)].

Definition delete (h : t) (name : string) : t :=
  filter (fun e => negb (sameName (fst e) name)) h.

(** [set(name, value)]: the first entry under [name] takes the value and the
    others are removed; without such an entry one is appended. *)
Fixpoint set (h : t) (name value : string) : t :=
  match h with
  | [] => [(name, normalize value)]
  | (k, v) :: rest =>
      if sameName k name then (k, normalize value) :: delete rest name
      else (k, v) :: set rest name value
  end.

(** Iteration order of [forEach]: lower-cased names, sorted, without
    repetition; the values of one name are combined. *)
Fixpoint insertName (n : string) (l : list string) : list string :=
  match l with
  | [] => [n]
  | m :: rest =>
      if String.eqb n m then l
      else if String.ltb n m then n :: l
      else m :: insertName n rest
  end.

Definition names (h : t) : list string :=
  fold_right insertName [] (map (fun e => toLowerCase (fst e)) h).

Definition entries (h : t) : list (string * string) :=
  map (fun n => (n, join ", " (getAll h n))) (names h).

(** [h.forEach((value, key) => ...)] with the callback's effect on the
    state it mutates written as a function. *)
Definition forEach {S : Type} (h : t) (f : S -> string -> string -> S)
  (init : S) : S :=
  fold_left (fun acc e => f acc (snd e) (fst e)) (entries h) init.

End Headers.

(* ================================================================== *)
(** * Requests, responses and the upstream capability *)

Inductive RedirectMode := Follow | Manual | Error.

Module Request.
(** A request; [U] is the representation of its URL: a parsed [URL] for the
    inbound request, the string given to [new Request] for the upstream
    one. *)
Record t (U : Type) := mk {
  url      : U;
  method   : string;
  headers  : Headers.t;
  body     : option string;
  redirect : RedirectMode
}.
Arguments mk {U} _ _ _ _ _.
Arguments url {U} _.
Arguments method {U} _.
Arguments headers {U} _.
Arguments body {U} _.
Arguments redirect {U} _.
End Request.

Module Response.
Record t := mk {
  status     : Z;
  statusText : string;
  headers    : Headers.t;
  body       : option string
}.

(** The statuses whose responses have no body. *)
Definition nullBodyStatus (status : Z) : bool :=
  ((status =? 101) || (status =? 204) || (status =? 205) || (status =? 304))%Z.

(** [new Response(body, {status, statusText, headers})].  A status outside
    200..599 is refused (RangeError).  With a null-body status an empty
    body is dropped, leaving a null body, and any other body is refused
    (TypeError).  The header list given is copied.  [None] is a throw. *)
Definition construct (body : option string) (status : Z)
  (statusText : string) (headers : Headers.t) : option t :=
  if ((status <? 200) || (599 <? status))%Z then None
  else match body with
       | None => Some (mk status statusText headers None)
       | Some bytes =>
           if nullBodyStatus status then
             match bytes with
             | EmptyString => Some (mk status statusText headers None)
             | _ => None
             end
           else Some (mk status statusText headers (Some bytes))
       end.

(** [new Response(text)]: status 200 with its status text, and the content
    type the platform derives from a string body. *)
Definition ofText (text : string) : t :=
  mk 200 "OK" [("content-type", "text/plain;charset=UTF-8")] (Some text).

(** [await response.arrayBuffer()]: the body bytes, none for a null body. *)
Definition arrayBuffer (r : t) : string :=
  match body r with
  | Some b => b
  | None => ""
  end.
End Response.

(** The upstream capability: what [fetch] resolves to for a request, or
    [None] when it rejects. *)
Definition Net := Request.t string -> option Response.t.

(** Handlers: given the capability, a result (or a rejection) and the log of
    the requests handed to [fetch], oldest first. *)
Definition IO (A : Type) : Type := Net -> option A * list (Request.t string).

Definition ret {A} (a : A) : IO A := fun _ => (Some a, []).

Definition bind {A B} (m : IO A) (f : A -> IO B) : IO B :=
  fun net =>
    match m net with
    | (Some a, log) => let (r, log') := f a net in (r, log ++ log')
    | (None, log) => (None, log)
    end.

Definition fetch_ (r : Request.t string) : IO Response.t :=
  fun net => (net r, [r]).

(** A step that makes no call and may throw. *)
Definition lift {A} (o : option A) : IO A := fun _ => (o, []).

Notation "x <- m ;; k" := (bind m (fun x => k))
  (at level 61, m at next level, right associativity).

(* ================================================================== *)
(** * Rebuilding the final response *)

(** The callback of [response.headers.forEach]: every header but
    [Set-Cookie] is set on the new response. *)
Definition copyHeader (acc : Headers.t) (value key : string) : Headers.t :=
  if negb (String.eqb (toLowerCase key) "set-cookie")
  then Headers.set acc key value
  else acc.

(** The callback of [setCookieHeaders.forEach]. *)
Definition appendCookie (requestUrl : URL) (acc : Headers.t) (cookie : string)
  : Headers.t :=
  match modifyCookie cookie requestUrl with
  | Some modifiedCookie =>
      if truthy modifiedCookie
      then Headers.append acc "Set-Cookie" modifiedCookie
      else acc
  | None => acc
  end.

(** The mutations of [newResponse.headers], from the header list [h0] the
    new response starts with: copy the headers, rewrite the cookies, set
    the CORS headers. *)
Definition rebuiltHeaders (h0 : Headers.t) (response : Response.t)
  (request : Request.t URL) (url : URL) : Headers.t :=
  let h1 := Headers.forEach (Response.headers response) copyHeader h0 in
  let setCookieHeaders :=
    Headers.getAll (Response.headers response) "Set-Cookie" in
  let h2 := if (0 <? length setCookieHeaders)%nat
            then fold_left (appendCookie (Request.url request))
                           setCookieHeaders h1
            else h1 in
  let h3 := Headers.set h2 "Access-Control-Allow-Origin" (origin url) in
  let h4 := Headers.set h3 "Access-Control-Allow-Credentials" "true" in
  let h5 := Headers.set h4 "Access-Control-Allow-Methods"
                        "GET, POST, PUT, DELETE, OPTIONS" in
  let h6 := Headers.set h5 "Access-Control-Allow-Headers"
                        "Content-Type, Authorization" in
  h6.

(** The part of [handleApiRequest] after the upstream call that all
    revisions share word for word: read the body, construct the new
    response, then mutate its headers.  [None] when the constructor
    throws. *)
Definition rebuild (response : Response.t) (request : Request.t URL)
  (url : URL) : option Response.t :=
  let responseData := Response.arrayBuffer response in
  match Response.construct (Some responseData) (Response.status response)
                           (Response.statusText response) [] with
  | None => None
  | Some newResponse =>
      Some (Response.mk (Response.status newResponse)
                        (Response.statusText newResponse)
                        (rebuiltHeaders (Response.headers newResponse)
                                        response request url)
                        (Response.body newResponse))
  end.

(* ================================================================== *)
(** * The worker with the fallback notice *)

(** The literals in which the first revision of [src/index.ts] and the
    template revision differ. *)
Record Config := mkConfig {
  apiPrefix  : string;
  backend    : string;
  notice     : string
}.

Definition flyApiConfig : Config :=
  mkConfig "/fly-api/" "https://laclipasa-backend.fly.dev"
    "This is a proxy worker. API requests should be sent to /fly-api/...".

Definition templateConfig : Config :=
  mkConfig "/api/" "https://your-app-name.fly.dev"
    "This is a proxy worker. API requests should be sent to /api/...".

Module Worker.
Section WithConfig.
Variable cfg : Config.

Definition modifiedRequest (request : Request.t URL) (url : URL)
  : Request.t string :=
  let backendUrl := (backend cfg ++ pathname url ++ search url)%string in
  let headers := Request.headers request in
  Request.mk backendUrl (Request.method request) headers
             (Request.body request) Follow.

Definition handleApiRequest (request : Request.t URL) (url : URL)
  : IO Response.t :=
  response <- fetch_ (modifiedRequest request url) ;;
  lift (rebuild response request url).

Definition fetch (request : Request.t URL) : IO Response.t :=
  let url := Request.url request in
  if startsWith (pathname url) (apiPrefix cfg)
  then handleApiRequest request url
  else ret (Response.ofText (notice cfg)).

End WithConfig.
End Worker.

(* ================================================================== *)
(** * The second revision of [src/index.ts]: manual redirects *)

Module Pages.

Definition modifiedRequest (request : Request.t URL) (url : URL)
  : Request.t string :=
  let backendUrl := ("https://laclipasa-backend.fly.dev"
                     ++ removeFirst (pathname url) "/fly-api"
                     ++ search url)%string in
  let headers := Request.headers request in
  Request.mk backendUrl (Request.method request) headers
             (Request.body request) Manual.

(** The test of the redirect branch. *)
Definition isRedirect (response : Response.t) : bool :=
  (Response.status response >=? 300)%Z
  && (Response.status response <? 400)%Z
  && Headers.has (Response.headers response) "Location".

Definition handleApiRequest (request : Request.t URL) (url : URL)
  : IO Response.t :=
  response <- fetch_ (modifiedRequest request url) ;;
  if isRedirect response then
    lift (Response.construct None (Response.status response)
                             (Response.statusText response)
                             (Response.headers response))
  else
    lift (rebuild response request url).

(** The inbound request handed to [fetch] as it is. *)
Definition forwarded (request : Request.t URL) : Request.t string :=
  Request.mk (href (Request.url request)) (Request.method request)
             (Request.headers request) (Request.body request)
             (Request.redirect request).

Definition handleRequest (request : Request.t URL) : IO Response.t :=
  let url := Request.url request in
  if startsWith (pathname url) "/fly-api/"
  then handleApiRequest request url
  else fetch_ (forwarded request).

End Pages.

(** The three revisions of the worker's entry point. *)
Inductive Revision := FlyApi | FlyApiPages | Template.

Definition worker (rev : Revision) : Request.t URL -> IO Response.t :=
  match rev with
  | FlyApi => Worker.fetch flyApiConfig
  | FlyApiPages => Pages.handleRequest
  | Template => Worker.fetch templateConfig
  end.

(** The request the worker of a revision hands to [fetch] for a proxied
    inbound request. *)
Definition upstreamRequest (rev : Revision) (request : Request.t URL)
  : Request.t string :=
  match rev with
  | FlyApi => Worker.modifiedRequest flyApiConfig request (Request.url request)
  | FlyApiPages => Pages.modifiedRequest request (Request.url request)
  | Template =>
      Worker.modifiedRequest templateConfig request (Request.url request)
  end.

(** The configured prefix and origin of each revision. *)
Definition prefixOf (rev : Revision) : string :=
  match rev with
  | FlyApi | FlyApiPages => "/fly-api/"
  | Template => "/api/"
  end.

Definition originOf (rev : Revision) : string :=
  match rev with
  | FlyApi | FlyApiPages => "https://laclipasa-backend.fly.dev"
  | Template => "https://your-app-name.fly.dev"
  end.

(** Whether a revision passes an upstream response through as a redirect. *)
Definition passedThrough (rev : Revision) (response : Response.t) : bool :=
  match rev with
  | FlyApiPages => Pages.isRedirect response
  | _ => false
  end.

(** Running a handler: the response (if any) and the upstream calls made. *)
Definition result {A} (m : IO A) (net : Net) : option A := fst (m net).
Definition calls {A} (m : IO A) (net : Net) : list (Request.t string) :=
  snd (m net).

(* ================================================================== *)
(** * The specification's reading of the cookie rewrite *)

Module Spec.

(** A segment cut at its first [=]: the key, and the value when there is
    one. *)
Fixpoint keyValue (seg : string) : string * option string :=
  match seg with
  | EmptyString => (EmptyString, None)
  | String c r =>
      if Ascii.eqb c "=" then (EmptyString, Some r)
      else let (k, v) := keyValue r in (String c k, v)
  end.

(** [name=<anything>]: the key is [name] up to case and a value follows. *)
Definition hasKeyWithValue (name seg : string) : bool :=
  let (k, v) := keyValue seg in
  String.eqb (toLowerCase k) (toLowerCase name)
  && match v with Some _ => true | None => false end.

(** Bare [name]: the key is [name] up to case and no value follows. *)
Definition isBare (name seg : string) : bool :=
  let (k, v) := keyValue seg in
  String.eqb (toLowerCase k) (toLowerCase name)
  && match v with Some _ => false | None => true end.

(** Step 3 of the algorithm, on one attribute segment. *)
Definition rewriteAttribute (hostname seg : string) : string :=
  if hasKeyWithValue "Domain" seg then ("Domain=" ++ hostname)%string
  else if hasKeyWithValue "SameSite" seg then "SameSite=None"
  else if isBare "Secure" seg then "Secure"
  else seg.

(** Step 4: what was not seen, in the order Domain, SameSite, Secure. *)
Definition missingAttributes (hostname : string) (attrs : list string)
  : list string :=
  (if existsb (hasKeyWithValue "Domain") attrs then []
   else [("Domain=" ++ hostname)%string])
  ++ (if existsb (hasKeyWithValue "SameSite") attrs then []
      else ["SameSite=None"])
  ++ (if existsb (isBare "Secure") attrs then [] else ["Secure"]).

(** Steps 2 to 5: split and trim, rewrite in place, append, join. *)
Definition rewrite (cookie hostname : string) : string :=
  let segments := map trim (split ";" cookie) in
  let mainPart := hd EmptyString segments in
  let attrs := tl segments in
  join "; " (mainPart :: map (rewriteAttribute hostname) attrs
                      ++ missingAttributes hostname attrs).

(** The upstream URL as the specification writes it. *)
Definition upstreamUrl (origin transformedPath query : string) : string :=
  (origin ++ transformedPath ++ "?" ++ query)%string.

End Spec.

(** The query of a URL as a string, empty when there is none. *)
Definition queryText (u : URL) : string :=
  match query u with
  | Some q => q
  | None => ""
  end.

(** The path transform of each revision: the path as it is, or the path
    without its leading [/fly-api]. *)
Definition transformedPath (rev : Revision) (path : string) : string :=
  match rev with
  | FlyApiPages => substring 8 (String.length path - 8) path
  | _ => path
  end.

(** Attribute segments of a cookie string: all segments but the first. *)
Definition attributes (cookie : string) : list string :=
  tl (cookieParts cookie).

(** Number of segments a recogniser accepts. *)
Definition count (p : string -> bool) (l : list string) : nat :=
  length (filter p l).

(** Segments the loop passes on unchanged. *)
Definition isOtherPart (seg : string) : bool :=
  negb (isDomainPart seg || isSameSitePart seg || isSecurePart seg).

(** The loop body's effect on one segment. *)
Definition rewriteSeg (url : URL) (seg : string) : string :=
  if isDomainPart seg then domainAttr url
  else if isSameSitePart seg then "SameSite=None"
  else if isSecurePart seg then "Secure"
  else seg.

(** What the three trailing [if]s push, given the attribute segments the
    loop has gone through. *)
Definition missingParts (url : URL) (attrs : list string) : list string :=
  (if existsb isDomainPart attrs then [] else [domainAttr url])
  ++ (if existsb isSameSitePart attrs then [] else ["SameSite=None"])
  ++ (if existsb isSecurePart attrs then [] else ["Secure"]).

(** The non-null results of a list, in order. *)
Fixpoint keepSome {A} (l : list (option A)) : list A :=
  match l with
  | [] => []
  | Some a :: rest => a :: keepSome rest
  | None :: rest => keepSome rest
  end.

(** The headers [rebuild] copies: all but [Set-Cookie], which is rewritten,
    and the four CORS headers, which are set afterwards. *)
Definition isCorsName (name : string) : bool :=
  Headers.sameName name "Access-Control-Allow-Origin"
  || Headers.sameName name "Access-Control-Allow-Credentials"
  || Headers.sameName name "Access-Control-Allow-Methods"
  || Headers.sameName name "Access-Control-Allow-Headers".

Fixpoint hasChar (c : ascii) (s : string) : bool :=
  match s with
  | EmptyString => false
  | String d r => Ascii.eqb d c || hasChar c r
  end.

(** A hostname that survives a second parse of the cookie: it holds no
    [;] and does not end in white space. *)
Definition hostnameSafe (h : string) : bool :=
  negb (hasChar ";" h) && String.eqb (trimEnd h) h.

(** Sample inputs. *)
Definition example_com (path : string) (q : option string) : URL :=
  mkURL "http" "example.com" None path q.

Definition get_request (u : URL) : Request.t URL :=
  Request.mk u "GET" [] None Manual.

(** "Exactly one Domain, one SameSite and one Secure attribute", counted
    over the attribute segments of a cookie string with the recognisers of
    the rewrite. *)
Definition exactlyOneOfEach (cookie : string) : Prop :=
  count isDomainPart (attributes cookie) = 1
  /\ count isSameSitePart (attributes cookie) = 1
  /\ count isSecurePart (attributes cookie) = 1.

(** A recognised segment in the form the rewrite gives it. *)
Definition canonical (url : URL) (seg : string) : Prop :=
  (isDomainPart seg = true -> seg = domainAttr url)
  /\ (isSameSitePart seg = true -> seg = "SameSite=None")
  /\ (isSecurePart seg = true -> seg = "Secure").

(** The upstream answers the constructor of the rebuilt response accepts:
    a status in 200..599, and no body bytes when the status is a null-body
    status. *)
Definition rebuildable (up : Response.t) : bool :=
  (200 <=? Response.status up)%Z && (Response.status up <=? 599)%Z
  && (negb (Response.nullBodyStatus (Response.status up))
      || String.eqb (Response.arrayBuffer up) "").

(** The body of a rebuilt response: null for a null-body status, the
    upstream's bytes otherwise. *)
Definition rebuiltBody (up : Response.t) : option string :=
  if Response.nullBodyStatus (Response.status up) then None
  else Some (Response.arrayBuffer up).

(** The response of the redirect branch: status, status text and headers
    of the upstream response, and no body. *)
Definition passThrough (up : Response.t) : Response.t :=
  Response.mk (Response.status up) (Response.statusText up)
              (Response.headers up) None.

(** The mocked upstream responses of the test suite, and a redirect. *)
Definition mockResponse : Response.t :=
  Response.mk 200 "OK"
    [("Content-Type", "application/json");
     ("Set-Cookie",
      "auth_token=abc123; Path=/; Domain=laclipasa-backend.fly.dev; SameSite=Lax; Secure")]
    (Some "Mock backend response").

Definition twoCookies : Response.t :=
  Response.mk 200 "OK"
    [("Set-Cookie", "auth_token=abc123; Path=/; Domain=laclipasa-backend.fly.dev");
     ("Set-Cookie", "");
     ("Set-Cookie", "session=xyz789; Path=/; Domain=laclipasa-backend.fly.dev")]
    (Some "Response with multiple cookies").

Definition permissiveUpstream : Response.t :=
  Response.mk 200 "OK"
    [("access-control-allow-origin", "*");
     ("Content-Type", "application/json")]
    (Some "{}").

Definition foundElsewhere : Response.t :=
  Response.mk 302 "Found" [("Location", "https://x/y")] None.

(** A request URL whose hostname holds a semicolon, which the URL parser
    accepts in a host. *)
Definition semicolonHost : URL :=
  mkURL "https" "x;y" None "/fly-api/login" None.

(** A request URL whose hostname ends in [;secure]. *)
Definition semicolonSecureHost : URL :=
  mkURL "https" "x;secure" None "/fly-api/login" None.

(** Upstream answers with a null-body status, and one with a status the
    constructor refuses. *)
Definition notModified : Response.t :=
  Response.mk 304 "Not Modified"
    [("ETag", "abc"); ("Set-Cookie", "sid=1; Path=/")] None.

Definition noContent : Response.t :=
  Response.mk 204 "No Content" [("X-Trace", "1")] None.

Definition switching : Response.t :=
  Response.mk 101 "Switching Protocols" [("Upgrade", "websocket")] None.

(** A cookie that holds the three attributes and ends with a [;]. *)
Definition trailingSemicolon : Response.t :=
  Response.mk 200 "OK"
    [("Set-Cookie", "a=b; Domain=x; SameSite=Lax; Secure;")] (Some "ok").

Definition answering (up : Response.t) : Net := fun _ => Some up.

Definition unreachable : Net := fun _ => None.

(** Two attribute segments the loop treats alike: both [Domain=...], both
    [SameSite=...], both bare [Secure], or the same unrecognised text. *)
Definition sameKind (a b : string) : bool :=
  if isDomainPart a then isDomainPart b
  else if isSameSitePart a then isSameSitePart b
  else if isSecurePart a then isSecurePart b
  else String.eqb a b.

(** The redirect mode each revision gives the upstream request. *)
Definition redirectOf (rev : Revision) : RedirectMode :=
  match rev with
  | FlyApiPages => Manual
  | _ => Follow
  end.

(** More sample inputs: a request with a body and headers, an upstream
    answer that repeats a header name. *)
Definition post_request (u : URL) : Request.t URL :=
  Request.mk u "POST"
    [("Content-Type", "text/plain"); ("Authorization", "Bearer token123")]
    (Some "test=true") Manual.

Definition repeatedHeader : Response.t :=
  Response.mk 404 "Not Found"
    [("Vary", "Origin"); ("X-Trace", "1"); ("vary", "Accept")]
    None.

(* ================================================================== *)
(** * Tests of the repository, replayed *)

Example modifyCookie_test :
  modifyCookie
    "auth_token=abc123; Path=/; Domain=laclipasa-backend.fly.dev; SameSite=Lax"
    (example_com "/fly-api/login" None)
  = Some "auth_token=abc123; Path=/; Domain=example.com; SameSite=None; Secure".
Proof. reflexivity. Qed.

Example proxies_api_routes (net : Net) :
  map Request.url
      (calls (worker FlyApiPages (get_request (example_com "/fly-api/users" None))) net)
  = ["https://laclipasa-backend.fly.dev/users"].
Proof.
  unfold calls, worker, Pages.handleRequest; simpl.
  unfold Pages.handleApiRequest, bind, fetch_.
  destruct (net _) as [up|]; [destruct (Pages.isRedirect up)|]; reflexivity.
Qed.

Example default_message (net : Net) :
  result (worker FlyApi (get_request (example_com "/" None))) net
  = Some (Response.ofText
      "This is a proxy worker. API requests should be sent to /fly-api/...").
Proof. reflexivity. Qed.

(* ================================================================== *)
(** * Lemmas on the string primitives *)

Section StringFacts.

Lemma lower_char_eq_sign (c : ascii) :
  Ascii.eqb (lower_char c) "=" = Ascii.eqb c "=".
Proof.
  destruct c as [[] [] [] [] [] [] [] []]; reflexivity.
Qed.

Lemma truthy_false (s : string) : truthy s = false <-> s = "".
Proof.
  destruct s; simpl; split; intro H; congruence.
Qed.

Lemma trimEnd_idem (s : string) : trimEnd (trimEnd s) = trimEnd s.
Proof.
  induction s as [|c r IH]; simpl; [reflexivity|].
  destruct (trimEnd r) as [|d r'] eqn:E.
  - destruct (is_ws c) eqn:W; simpl; [reflexivity|].
    now rewrite W.
  - remember (String d r') as t eqn:Et.
    simpl. rewrite IH. now rewrite Et.
Qed.

Lemma trimStart_head (c : ascii) (r : string) :
  is_ws c = false -> trimStart (String c r) = String c r.
Proof. intros W; simpl; now rewrite W. Qed.

Lemma trimEnd_head (c : ascii) (r : string) :
  is_ws c = false -> exists r', trimEnd (String c r) = String c r'.
Proof.
  intros W; simpl. destruct (trimEnd r); [rewrite W|]; eauto.
Qed.

Lemma trimStart_cases (s : string) :
  trimStart s = "" \/
  exists c r, trimStart s = String c r /\ is_ws c = false.
Proof.
  induction s as [|c r IH]; simpl; [now left|].
  destruct (is_ws c) eqn:W; [exact IH|].
  right; eauto.
Qed.

Lemma trim_idem (s : string) : trim (trim s) = trim s.
Proof.
  unfold trim.
  destruct (trimStart_cases s) as [E | (c & r & E & W)]; rewrite E.
  - reflexivity.
  - destruct (trimEnd_head c r W) as [r' E'].
    assert (T : trimStart (trimEnd (String c r)) = trimEnd (String c r)).
    { rewrite E'. now apply trimStart_head. }
    rewrite T. apply trimEnd_idem.
Qed.

Lemma trim_space (s : string) : trim (String " " s) = trim s.
Proof. reflexivity. Qed.

Lemma hasChar_app (c : ascii) (a b : string) :
  hasChar c (a ++ b) = hasChar c a || hasChar c b.
Proof.
  induction a as [|d a IH]; simpl; [reflexivity|].
  now rewrite IH, orb_assoc.
Qed.

Lemma hasChar_trimStart (c : ascii) (s : string) :
  hasChar c s = false -> hasChar c (trimStart s) = false.
Proof.
  induction s as [|d r IH]; simpl; [reflexivity|].
  intros H. apply orb_false_iff in H as [H1 H2].
  destruct (is_ws d); [auto|]. simpl. now rewrite H1, H2.
Qed.

Lemma hasChar_trimEnd (c : ascii) (s : string) :
  hasChar c s = false -> hasChar c (trimEnd s) = false.
Proof.
  induction s as [|d r IH]; simpl; [reflexivity|].
  intros H. apply orb_false_iff in H as [H1 H2].
  specialize (IH H2).
  destruct (trimEnd r) as [|e r'].
  - destruct (is_ws d); simpl; [reflexivity|]. now rewrite H1.
  - simpl in *. now rewrite H1, IH.
Qed.

Lemma hasChar_trim (c : ascii) (s : string) :
  hasChar c s = false -> hasChar c (trim s) = false.
Proof.
  intros H. unfold trim. now apply hasChar_trimEnd, hasChar_trimStart.
Qed.

Lemma split_nonempty (sep : ascii) (s : string) : split sep s <> [].
Proof.
  destruct s as [|c r]; simpl; [discriminate|].
  destruct (Ascii.eqb c sep); [discriminate|].
  destruct (split sep r); discriminate.
Qed.

Lemma split_pieces (sep : ascii) (s : string) :
  Forall (fun p => hasChar sep p = false) (split sep s).
Proof.
  induction s as [|c r IH]; simpl.
  - constructor; [reflexivity|constructor].
  - destruct (Ascii.eqb c sep) eqn:E.
    + constructor; [reflexivity|exact IH].
    + destruct (split sep r) as [|h t].
      * constructor; [simpl; now rewrite E|constructor].
      * inversion IH; subst. constructor; [simpl|assumption].
        now rewrite E.
Qed.

Lemma split_whole (sep : ascii) (s : string) :
  hasChar sep s = false -> split sep s = [s].
Proof.
  induction s as [|c r IH]; simpl; [reflexivity|].
  intros H. apply orb_false_iff in H as [H1 H2].
  rewrite H1, (IH H2). reflexivity.
Qed.

Lemma split_app (sep : ascii) (a b : string) :
  hasChar sep a = false ->
  split sep (a ++ String sep b) = a :: split sep b.
Proof.
  induction a as [|c r IH]; simpl.
  - intros _. now rewrite Ascii.eqb_refl.
  - intros H. apply orb_false_iff in H as [H1 H2].
    rewrite H1, (IH H2). reflexivity.
Qed.

(** Splitting a [; ]-joined list of [;]-free segments gives the segments
    back, each but the first behind one space. *)
Lemma split_join (x : string) (l : list string) :
  Forall (fun p => hasChar ";" p = false) (x :: l) ->
  split ";" (join "; " (x :: l)) = x :: map (String " ") l.
Proof.
  revert x. induction l as [|y l IH]; intros x H.
  - simpl. inversion H; subst. now apply split_whole.
  - inversion H as [|? ? Hx Hl]; subst.
    change (join "; " (x :: y :: l))
      with (x ++ String ";" (String " " (join "; " (y :: l))))%string.
    rewrite split_app by exact Hx.
    f_equal.
    assert (E : split ";" (String " " (join "; " (y :: l)))
                = String " " y :: map (String " ") l).
    { cbn [split]. change (Ascii.eqb " " ";") with false. cbv iota.
      rewrite (IH y Hl). reflexivity. }
    rewrite E. reflexivity.
Qed.

(** Parsing a joined list of trimmed, [;]-free segments is the identity. *)
Lemma cookieParts_join (x : string) (l : list string) :
  Forall (fun p => hasChar ";" p = false /\ trim p = p) (x :: l) ->
  cookieParts (join "; " (x :: l)) = x :: l.
Proof.
  intros H. unfold cookieParts.
  rewrite split_join.
  2:{ eapply Forall_impl; [|exact H]. now intros a [Ha _]. }
  inversion H as [|? ? [_ Hx] Hl]; subst. simpl. rewrite Hx. f_equal.
  rewrite map_map. clear H Hx.
  induction l as [|y l IH]; simpl; [reflexivity|].
  inversion Hl as [|? ? [_ Hy] Hl']; subst.
  rewrite trim_space, Hy, (IH Hl'). reflexivity.
Qed.

Lemma cookieParts_clean (cookie : string) :
  Forall (fun p => hasChar ";" p = false /\ trim p = p) (cookieParts cookie).
Proof.
  unfold cookieParts. apply Forall_map.
  eapply Forall_impl; [|apply split_pieces].
  intros p Hp. split; [now apply hasChar_trim|apply trim_idem].
Qed.

Lemma cookieParts_nonempty (cookie : string) : cookieParts cookie <> [].
Proof.
  unfold cookieParts. pose proof (split_nonempty ";" cookie) as H.
  destruct (split ";" cookie); [congruence|discriminate].
Qed.

Lemma join_truthy (x : string) (l : list string) :
  l <> [] -> truthy (join "; " (x :: l)) = true.
Proof.
  destruct l as [|y l]; [congruence|intros _].
  change (join "; " (x :: y :: l))
    with (x ++ String ";" (String " " (join "; " (y :: l))))%string.
  destruct x; reflexivity.
Qed.

End StringFacts.

(* ================================================================== *)
(** * The loop of [modifyCookie] *)

Section CookieLoop.
Variable url : URL.

Lemma cookieStep_rewriteSeg (st : CookieState) (seg : string) :
  cookieStep url st seg =
  mkCookieState (newCookieParts st ++ [rewriteSeg url seg])
                (hasDomain st || isDomainPart seg)
                (hasSameSite st || isSameSitePart seg)
                (hasSecure st || isSecurePart seg).
Proof.
  unfold cookieStep, rewriteSeg, isDomainPart, isSameSitePart, isSecurePart.
  destruct (toLowerCase seg) as [|c r] eqn:E.
  - simpl. now rewrite !orb_false_r.
  - destruct (startsWith (String c r) "domain=") eqn:D.
    + assert (c = "d"%char) as ->.
      { simpl in D. apply andb_prop in D as [D _].
        symmetry. now apply Ascii.eqb_eq. }
      simpl. now rewrite !orb_false_r, orb_true_r.
    + destruct (startsWith (String c r) "samesite=") eqn:S.
      * destruct r as [|c2 r]; [simpl in S; now rewrite andb_false_r in S|].
        assert (c = "s"%char /\ c2 = "a"%char) as [-> ->].
        { simpl in S. apply andb_prop in S as [S1 S].
          apply andb_prop in S as [S2 _].
          split; symmetry; now apply Ascii.eqb_eq. }
        simpl. now rewrite !orb_false_r, orb_true_r.
      * destruct (String c r =? "secure")%string eqn:C.
        -- now rewrite !orb_false_r, orb_true_r.
        -- now rewrite !orb_false_r.
Qed.

(** The loop appends the rewritten segments in order and raises each flag
    when a matching segment went by. *)
Lemma cookieLoop (attrs : list string) (st : CookieState) :
  fold_left (cookieStep url) attrs st =
  mkCookieState (newCookieParts st ++ map (rewriteSeg url) attrs)
                (hasDomain st || existsb isDomainPart attrs)
                (hasSameSite st || existsb isSameSitePart attrs)
                (hasSecure st || existsb isSecurePart attrs).
Proof.
  revert st. induction attrs as [|seg attrs IH]; intros st; simpl.
  - rewrite app_nil_r, !orb_false_r. now destruct st.
  - rewrite IH, cookieStep_rewriteSeg. simpl.
    rewrite <- app_assoc, !orb_assoc. reflexivity.
Qed.

Lemma rewrittenParts_eq (cookie : string) :
  rewrittenParts cookie url =
  hd "" (cookieParts cookie)
  :: map (rewriteSeg url) (attributes cookie)
     ++ missingParts url (attributes cookie).
Proof.
  unfold rewrittenParts, missingParts, attributes.
  rewrite cookieLoop. simpl.
  destruct (existsb isDomainPart _), (existsb isSameSitePart _),
           (existsb isSecurePart _); simpl;
    rewrite <- ?app_assoc, ?app_nil_r; reflexivity.
Qed.

Lemma modifyCookie_some (cookie : string) :
  cookie <> "" ->
  modifyCookie cookie url = Some (join "; " (rewrittenParts cookie url)).
Proof.
  intros H. unfold modifyCookie.
  destruct cookie; [congruence|reflexivity].
Qed.

Lemma modifyCookie_none (cookie : string) :
  modifyCookie cookie url = None <-> cookie = "".
Proof.
  unfold modifyCookie. destruct cookie; simpl; split; intro H; congruence.
Qed.

(** The recognisers exclude one another. *)
Lemma recognisers_exclusive (seg : string) :
  (isDomainPart seg = true ->
     isSameSitePart seg = false /\ isSecurePart seg = false)
  /\ (isSameSitePart seg = true -> isSecurePart seg = false).
Proof.
  unfold isDomainPart, isSameSitePart, isSecurePart.
  destruct (toLowerCase seg) as [|c r]; [split; intros; discriminate|].
  split.
  - intros D. assert (c = "d"%char) as ->.
    { simpl in D. apply andb_prop in D as [D _].
      symmetry. now apply Ascii.eqb_eq. }
    split; reflexivity.
  - intros S.
    destruct r as [|c2 r]; [simpl in S; now rewrite andb_false_r in S|].
    assert (c = "s"%char /\ c2 = "a"%char) as [-> ->].
    { simpl in S. apply andb_prop in S as [S1 S].
      apply andb_prop in S as [S2 _].
      split; symmetry; now apply Ascii.eqb_eq. }
    reflexivity.
Qed.

Lemma domainAttr_class :
  isDomainPart (domainAttr url) = true
  /\ isSameSitePart (domainAttr url) = false
  /\ isSecurePart (domainAttr url) = false.
Proof. repeat split; reflexivity. Qed.

(** Rewriting a segment keeps the recogniser that accepts it. *)
Lemma rewriteSeg_class (seg : string) :
  isDomainPart (rewriteSeg url seg) = isDomainPart seg
  /\ isSameSitePart (rewriteSeg url seg) = isSameSitePart seg
  /\ isSecurePart (rewriteSeg url seg) = isSecurePart seg.
Proof.
  destruct (recognisers_exclusive seg) as [HD HS].
  unfold rewriteSeg.
  destruct (isDomainPart seg) eqn:D.
  - destruct (HD eq_refl) as [-> ->]. apply domainAttr_class.
  - destruct (isSameSitePart seg) eqn:S.
    + rewrite (HS eq_refl). repeat split; reflexivity.
    + destruct (isSecurePart seg) eqn:C; [repeat split; reflexivity|].
      now rewrite D, S, C.
Qed.

End CookieLoop.

(* ================================================================== *)
(** * The recognisers of the code and the specification's key/value reading *)

Section Recognisers.

Lemma startsWith_key (n s : string) :
  hasChar "=" n = false ->
  startsWith (toLowerCase s) (n ++ "=") =
  (let (k, v) := Spec.keyValue s in
   String.eqb (toLowerCase k) n
   && match v with Some _ => true | None => false end).
Proof.
  revert s. induction n as [|a n IH]; intros s Hn.
  - destruct s as [|c r];
      cbn [startsWith toLowerCase String.append Spec.keyValue];
      [reflexivity|].
    rewrite Ascii.eqb_sym, lower_char_eq_sign, andb_true_r.
    destruct (Ascii.eqb c "="); [reflexivity|].
    destruct (Spec.keyValue r); reflexivity.
  - cbn [hasChar] in Hn. apply orb_false_iff in Hn as [Ha Hn].
    destruct s as [|c r];
      cbn [startsWith toLowerCase String.append Spec.keyValue];
      [reflexivity|].
    destruct (Ascii.eqb c "=") eqn:E.
    + apply Ascii.eqb_eq in E; subst c.
      change (lower_char "=") with "="%char. now rewrite Ha.
    + rewrite (IH r Hn). destruct (Spec.keyValue r) as [k v].
      cbn [toLowerCase String.eqb].
      rewrite (Ascii.eqb_sym a), andb_assoc. reflexivity.
Qed.

Lemma eqb_key (n s : string) :
  hasChar "=" n = false ->
  String.eqb (toLowerCase s) n =
  (let (k, v) := Spec.keyValue s in
   String.eqb (toLowerCase k) n
   && match v with Some _ => false | None => true end).
Proof.
  revert s. induction n as [|a n IH]; intros s Hn.
  - destruct s as [|c r]; cbn [toLowerCase String.eqb Spec.keyValue];
      [reflexivity|].
    destruct (Ascii.eqb c "="); [reflexivity|].
    destruct (Spec.keyValue r); reflexivity.
  - cbn [hasChar] in Hn. apply orb_false_iff in Hn as [Ha Hn].
    destruct s as [|c r]; cbn [toLowerCase String.eqb Spec.keyValue];
      [reflexivity|].
    destruct (Ascii.eqb c "=") eqn:E.
    + apply Ascii.eqb_eq in E; subst c.
      change (lower_char "=") with "="%char.
      rewrite Ascii.eqb_sym, Ha. reflexivity.
    + rewrite (IH r Hn). destruct (Spec.keyValue r) as [k v].
      cbn [toLowerCase String.eqb].
      destruct (Ascii.eqb (lower_char c) a), (String.eqb (toLowerCase k) n), v;
        reflexivity.
Qed.

(** [part.startsWith('domain=')] is "key Domain, with a value". *)
Lemma isDomainPart_spec (seg : string) :
  isDomainPart seg = Spec.hasKeyWithValue "Domain" seg.
Proof. apply (startsWith_key "domain"). reflexivity. Qed.

Lemma isSameSitePart_spec (seg : string) :
  isSameSitePart seg = Spec.hasKeyWithValue "SameSite" seg.
Proof. apply (startsWith_key "samesite"). reflexivity. Qed.

(** [part === 'secure'] is "bare Secure". *)
Lemma isSecurePart_spec (seg : string) :
  isSecurePart seg = Spec.isBare "Secure" seg.
Proof. apply (eqb_key "secure"). reflexivity. Qed.

Lemma rewriteSeg_spec (url : URL) (seg : string) :
  rewriteSeg url seg = Spec.rewriteAttribute (hostname url) seg.
Proof.
  unfold rewriteSeg, Spec.rewriteAttribute.
  now rewrite isDomainPart_spec, isSameSitePart_spec, isSecurePart_spec.
Qed.

Lemma existsb_ext_eq {A} (f g : A -> bool) (l : list A) :
  (forall a, f a = g a) -> existsb f l = existsb g l.
Proof.
  intros H. induction l as [|a l IH]; simpl; [reflexivity|].
  now rewrite H, IH.
Qed.

Lemma missingParts_spec (url : URL) (attrs : list string) :
  missingParts url attrs = Spec.missingAttributes (hostname url) attrs.
Proof.
  unfold missingParts, Spec.missingAttributes.
  rewrite (existsb_ext_eq _ _ attrs isDomainPart_spec),
          (existsb_ext_eq _ _ attrs isSameSitePart_spec),
          (existsb_ext_eq _ _ attrs isSecurePart_spec).
  reflexivity.
Qed.

End Recognisers.

(* ================================================================== *)
(** * Counting the recognised attributes *)

Section Counting.
Variable url : URL.

Lemma count_app (p : string -> bool) (a b : list string) :
  count p (a ++ b) = count p a + count p b.
Proof. unfold count. now rewrite filter_app, length_app. Qed.

Lemma count_map_class (p : string -> bool) (l : list string) :
  (forall seg, p (rewriteSeg url seg) = p seg) ->
  count p (map (rewriteSeg url) l) = count p l.
Proof.
  intros H. unfold count. induction l as [|a l IH]; simpl; [reflexivity|].
  rewrite H. destruct (p a); simpl; now rewrite IH.
Qed.

Lemma existsb_count (p : string -> bool) (l : list string) :
  existsb p l = negb (Nat.eqb (count p l) 0).
Proof.
  unfold count. induction l as [|a l IH]; simpl; [reflexivity|].
  destruct (p a); simpl; [reflexivity|exact IH].
Qed.

Lemma count_missing (attrs : list string) :
  count isDomainPart (missingParts url attrs)
    = (if existsb isDomainPart attrs then 0 else 1)
  /\ count isSameSitePart (missingParts url attrs)
    = (if existsb isSameSitePart attrs then 0 else 1)
  /\ count isSecurePart (missingParts url attrs)
    = (if existsb isSecurePart attrs then 0 else 1).
Proof.
  unfold missingParts.
  destruct (existsb isDomainPart attrs), (existsb isSameSitePart attrs),
           (existsb isSecurePart attrs); repeat split; reflexivity.
Qed.

Lemma max_one (p : string -> bool) (l : list string) :
  count p l + (if existsb p l then 0 else 1) = Nat.max 1 (count p l).
Proof.
  rewrite existsb_count. destruct (count p l); simpl; lia.
Qed.

(** After the first segment the rewrite emits, for each recogniser, as many
    accepted segments as the input had, and one when it had none. *)
Lemma count_rewritten (cookie : string) :
  let out := tl (rewrittenParts cookie url) in
  let inp := attributes cookie in
  count isDomainPart out = Nat.max 1 (count isDomainPart inp)
  /\ count isSameSitePart out = Nat.max 1 (count isSameSitePart inp)
  /\ count isSecurePart out = Nat.max 1 (count isSecurePart inp).
Proof.
  rewrite rewrittenParts_eq. cbn [tl]. cbv zeta.
  destruct (count_missing (attributes cookie)) as (M1 & M2 & M3).
  rewrite !count_app, M1, M2, M3.
  rewrite !count_map_class by (intros seg; apply rewriteSeg_class).
  rewrite !max_one. auto.
Qed.

(** Every recognised segment the rewrite emits is in canonical form. *)
Lemma rewritten_canonical (cookie : string) :
  Forall (canonical url) (tl (rewrittenParts cookie url)).
Proof.
  unfold canonical.
  rewrite rewrittenParts_eq. cbn [tl]. apply Forall_app. split.
  - apply Forall_map. apply Forall_forall. intros seg _.
    destruct (rewriteSeg_class url seg) as (C1 & C2 & C3).
    rewrite C1, C2, C3.
    destruct (recognisers_exclusive seg) as [HD HS].
    unfold rewriteSeg.
    destruct (isDomainPart seg) eqn:D.
    + destruct (HD eq_refl) as [-> ->]. repeat split; congruence.
    + destruct (isSameSitePart seg) eqn:S.
      * rewrite (HS eq_refl). repeat split; congruence.
      * destruct (isSecurePart seg); repeat split; congruence.
  - unfold missingParts.
    destruct (existsb isDomainPart _), (existsb isSameSitePart _),
             (existsb isSecurePart _); simpl;
      repeat constructor; intros; try reflexivity; discriminate.
Qed.

End Counting.

(* ================================================================== *)
(** * Header lists: [set], [append], [getAll] and [forEach] *)

Section HeaderFacts.
Import Headers.

Lemma sameName_left (k n m : string) :
  sameName n m = true -> sameName k n = sameName k m.
Proof.
  unfold sameName. intros H. apply String.eqb_eq in H. now rewrite H.
Qed.

Lemma sameName_sym (a b : string) : sameName a b = sameName b a.
Proof. unfold sameName. apply String.eqb_sym. Qed.

Lemma sameName_lower (a b : string) :
  toLowerCase a = toLowerCase b -> sameName a b = true.
Proof. unfold sameName. intros ->. apply String.eqb_refl. Qed.

Lemma getAll_app (h1 h2 : t) (n : string) :
  getAll (h1 ++ h2) n = getAll h1 n ++ getAll h2 n.
Proof. unfold getAll. now rewrite filter_app, map_app. Qed.

Lemma getAll_append (h : t) (k v n : string) :
  getAll (append h k v) n =
  getAll h n ++ (if sameName k n then [normalize v] else []).
Proof.
  unfold append. rewrite getAll_app. f_equal.
  unfold getAll. simpl. now destruct (sameName k n).
Qed.

Lemma getAll_delete_same (h : t) (k n : string) :
  sameName k n = true -> getAll (delete h k) n = [].
Proof.
  intros H. unfold getAll, delete.
  induction h as [|[a x] h IH]; simpl; [reflexivity|].
  destruct (sameName a k) eqn:E; simpl; [exact IH|].
  rewrite <- (sameName_left a k n H), E. exact IH.
Qed.

Lemma getAll_delete_other (h : t) (k n : string) :
  sameName k n = false -> getAll (delete h k) n = getAll h n.
Proof.
  intros H. unfold getAll, delete.
  induction h as [|[a x] h IH]; simpl; [reflexivity|].
  destruct (sameName a k) eqn:E; simpl.
  - assert (sameName a n = false) as ->; [|exact IH].
    rewrite sameName_sym in E.
    rewrite <- H. symmetry. rewrite !(sameName_sym _ n).
    now apply sameName_left.
  - destruct (sameName a n); simpl; now rewrite IH.
Qed.

(** [set] leaves exactly one value under the name it sets ... *)
Lemma getAll_set_same (h : t) (k v n : string) :
  sameName k n = true -> getAll (set h k v) n = [normalize v].
Proof.
  intros H. induction h as [|[a x] h IH]; simpl.
  - unfold getAll. simpl. now rewrite H.
  - destruct (sameName a k) eqn:E.
    + unfold getAll at 1. simpl.
      rewrite <- (sameName_left a k n H), E. simpl. f_equal.
      now apply getAll_delete_same.
    + unfold getAll at 1. simpl.
      rewrite <- (sameName_left a k n H), E. exact IH.
Qed.

(** ... and does not touch the values under any other name. *)
Lemma getAll_set_other (h : t) (k v n : string) :
  sameName k n = false -> getAll (set h k v) n = getAll h n.
Proof.
  intros H. induction h as [|[a x] h IH]; simpl.
  - unfold getAll. simpl. now rewrite H.
  - destruct (sameName a k) eqn:E.
    + unfold getAll at 1 2. simpl.
      assert (sameName a n = false) as ->.
      { rewrite sameName_sym in E.
        rewrite <- H. symmetry. rewrite !(sameName_sym _ n).
        now apply sameName_left. }
      now apply getAll_delete_other.
    + unfold getAll at 1 2. simpl.
      destruct (sameName a n); simpl; unfold getAll in IH; now rewrite IH.
Qed.

Lemma getAll_set (h : t) (k v n : string) :
  getAll (set h k v) n = if sameName k n then [normalize v] else getAll h n.
Proof.
  destruct (sameName k n) eqn:E;
    [now apply getAll_set_same | now apply getAll_set_other].
Qed.

Lemma has_getAll (h : t) (n : string) :
  has h n = match getAll h n with [] => false | _ => true end.
Proof.
  unfold has, getAll. induction h as [|[a x] h IH]; simpl; [reflexivity|].
  destruct (sameName a n); simpl; [reflexivity|exact IH].
Qed.

Lemma In_insertName (n m : string) (l : list string) :
  In n (insertName m l) <-> n = m \/ In n l.
Proof.
  induction l as [|a l IH]; simpl; [intuition congruence|].
  destruct (String.eqb m a) eqn:E.
  - apply String.eqb_eq in E; subst. simpl. intuition congruence.
  - destruct (String.ltb m a); simpl; [intuition congruence|].
    rewrite IH. intuition congruence.
Qed.

Lemma In_names (h : t) (n : string) :
  In n (names h) <-> exists e, In e h /\ toLowerCase (fst e) = n.
Proof.
  unfold names. induction h as [|e h IH]; simpl.
  - split; [intros []|intros (e & [] & _)].
  - rewrite In_insertName, IH. split.
    + intros [-> | (e' & He' & <-)]; eauto.
    + intros (e' & [<- | He'] & <-); eauto.
Qed.

Lemma toLowerCase_idem (s : string) :
  toLowerCase (toLowerCase s) = toLowerCase s.
Proof.
  induction s as [|c r IH]; simpl; [reflexivity|]. rewrite IH. f_equal.
  destruct c as [[] [] [] [] [] [] [] []]; reflexivity.
Qed.

(** What the copying loop leaves under a name, for any list of entries. *)
Lemma getAll_copy (es : list (string * string)) (acc : t) (n : string) :
  getAll (fold_left (fun a e => copyHeader a (snd e) (fst e)) es acc) n =
  fold_left
    (fun cur e =>
       if negb (String.eqb (toLowerCase (fst e)) "set-cookie")
          && sameName (fst e) n
       then [normalize (snd e)] else cur)
    es (getAll acc n).
Proof.
  revert acc. induction es as [|[k v] es IH]; intros acc; simpl;
    [reflexivity|].
  rewrite IH. f_equal. unfold copyHeader.
  destruct (String.eqb (toLowerCase k) "set-cookie"); simpl; [reflexivity|].
  apply getAll_set.
Qed.

Lemma copy_value (es : list (string * string)) (cur : list string)
  (n v : string) :
  String.eqb (toLowerCase n) "set-cookie" = false ->
  (forall e, In e es -> sameName (fst e) n = true -> snd e = v) ->
  fold_left
    (fun cur e =>
       if negb (String.eqb (toLowerCase (fst e)) "set-cookie")
          && sameName (fst e) n
       then [normalize (snd e)] else cur)
    es cur
  = if existsb (fun e => sameName (fst e) n) es
    then [normalize v] else cur.
Proof.
  intros Hn. revert cur.
  induction es as [|[k x] es IH]; intros cur Hv; simpl; [reflexivity|].
  rewrite IH by (intros e He; apply Hv; now right).
  destruct (sameName k n) eqn:E; simpl.
  - assert (String.eqb (toLowerCase k) "set-cookie" = false) as ->.
    { unfold sameName in E. apply String.eqb_eq in E. now rewrite E. }
    simpl. pose proof (Hv (k, x) (or_introl eq_refl) E) as Hx.
    simpl in Hx. subst x.
    now destruct (existsb _ es).
  - now rewrite andb_false_r.
Qed.

(** The copying loop leaves under every name other than [Set-Cookie] the
    combined upstream value, when the upstream has one. *)
Lemma getAll_copied (h : t) (n : string) :
  String.eqb (toLowerCase n) "set-cookie" = false ->
  getAll (forEach h copyHeader []) n =
  if has h n then [normalize (join ", " (getAll h n))] else [].
Proof.
  intros Hn. unfold forEach. rewrite getAll_copy.
  rewrite (copy_value _ _ n (join ", " (getAll h n)) Hn).
  - assert (X : existsb (fun e => sameName (fst e) n) (entries h) = has h n);
      [|now rewrite X].
    rewrite eq_iff_eq_true, existsb_exists. unfold has.
    rewrite existsb_exists. split.
    + intros (e & He & Hs). unfold entries in He.
      apply in_map_iff in He as (m & <- & Hm).
      apply In_names in Hm as (e' & He' & <-). simpl in Hs.
      exists e'. split; [assumption|].
      unfold sameName in *. now rewrite toLowerCase_idem in Hs.
    + intros (e & He & Hs).
      exists (toLowerCase (fst e), join ", " (getAll h (toLowerCase (fst e)))).
      split.
      * unfold entries. apply in_map_iff. exists (toLowerCase (fst e)).
        split; [reflexivity|]. apply In_names. eauto.
      * simpl. unfold sameName in *. now rewrite toLowerCase_idem.
  - intros e He Hs. unfold entries in He.
    apply in_map_iff in He as (m & <- & _). simpl in *.
    f_equal. unfold getAll. f_equal. apply filter_ext. intros a.
    now apply sameName_left.
Qed.

End HeaderFacts.

(* ================================================================== *)
(** * The rebuilt response *)

Section Rebuild.
Import Headers.

Lemma rewritten_tail_nonempty (cookie : string) (url : URL) :
  tl (rewrittenParts cookie url) <> [].
Proof.
  pose proof (count_rewritten url cookie) as H. cbv zeta in H.
  destruct H as (H & _).
  intros E. rewrite E in H. change (count isDomainPart []) with 0 in H. lia.
Qed.

Lemma modifyCookie_truthy (cookie s : string) (url : URL) :
  modifyCookie cookie url = Some s -> truthy s = true.
Proof.
  unfold modifyCookie. destruct (negb (truthy cookie)); [discriminate|].
  intros [= <-].
  pose proof (rewritten_tail_nonempty cookie url) as H.
  rewrite rewrittenParts_eq in *. cbn [tl] in H. now apply join_truthy.
Qed.

Lemma appendCookie_eq (url : URL) (acc : t) (cookie : string) :
  appendCookie url acc cookie =
  match modifyCookie cookie url with
  | Some s => append acc "Set-Cookie" s
  | None => acc
  end.
Proof.
  unfold appendCookie. destruct (modifyCookie cookie url) as [s|] eqn:E;
    [|reflexivity].
  now rewrite (modifyCookie_truthy _ _ _ E).
Qed.

Lemma getAll_cookies (url : URL) (cs : list string) (acc : t) (n : string) :
  getAll (fold_left (appendCookie url) cs acc) n =
  getAll acc n ++
  (if sameName "Set-Cookie" n
   then map normalize (keepSome (map (fun c => modifyCookie c url) cs))
   else []).
Proof.
  revert acc. induction cs as [|c cs IH]; intros acc; simpl.
  - destruct (sameName _ n); now rewrite app_nil_r.
  - rewrite IH, appendCookie_eq.
    destruct (modifyCookie c url) as [s|]; [|reflexivity].
    rewrite getAll_append, <- app_assoc.
    destruct (sameName "Set-Cookie" n); [reflexivity|].
    now rewrite !app_nil_r.
Qed.

Lemma getAll_copied_cookie (h : t) :
  getAll (forEach h copyHeader []) "Set-Cookie" = [].
Proof.
  unfold forEach. rewrite getAll_copy.
  change (getAll [] "Set-Cookie") with (@nil string).
  induction (entries h) as [|[k v] es IH]; simpl; [reflexivity|].
  unfold sameName at 1. change (toLowerCase "Set-Cookie") with "set-cookie".
  now rewrite andb_negb_l.
Qed.

Lemma cookie_loop_guard (url : URL) (cs : list string) (h : t) :
  (if (0 <? length cs)%nat then fold_left (appendCookie url) cs h else h)
  = fold_left (appendCookie url) cs h.
Proof. destruct cs; reflexivity. Qed.

Lemma rebuild_cookies (up : Response.t) (request : Request.t URL) (url : URL) :
  getAll (rebuiltHeaders [] up request url) "Set-Cookie" =
  map normalize
      (keepSome (map (fun c => modifyCookie c (Request.url request))
                     (getAll (Response.headers up) "Set-Cookie"))).
Proof.
  unfold rebuiltHeaders.
  rewrite !getAll_set_other by reflexivity.
  rewrite cookie_loop_guard, getAll_cookies, getAll_copied_cookie.
  reflexivity.
Qed.

Lemma rebuild_cors (up : Response.t) (request : Request.t URL) (url : URL) :
  let h := rebuiltHeaders [] up request url in
  getAll h "Access-Control-Allow-Origin" = [normalize (origin url)]
  /\ getAll h "Access-Control-Allow-Credentials" = ["true"]
  /\ getAll h "Access-Control-Allow-Methods"
     = ["GET, POST, PUT, DELETE, OPTIONS"]
  /\ getAll h "Access-Control-Allow-Headers"
     = ["Content-Type, Authorization"].
Proof.
  unfold rebuiltHeaders. cbv zeta.
  repeat split;
    repeat (rewrite getAll_set_other by reflexivity);
    now rewrite getAll_set_same by reflexivity.
Qed.

(** What the rebuilt header list holds under a name that is neither
    [Set-Cookie] nor a CORS name. *)
Lemma rebuild_other_values (up : Response.t) (request : Request.t URL)
  (url : URL) (n : string) :
  sameName n "Set-Cookie" = false ->
  isCorsName n = false ->
  getAll (rebuiltHeaders [] up request url) n
  = if has (Response.headers up) n
    then [normalize (join ", " (getAll (Response.headers up) n))] else [].
Proof.
  intros Hc Hn. unfold isCorsName in Hn.
  repeat (apply orb_false_iff in Hn as [Hn ?]).
  unfold rebuiltHeaders.
  rewrite !getAll_set_other by (now rewrite sameName_sym).
  rewrite cookie_loop_guard, getAll_cookies.
  rewrite (sameName_sym "Set-Cookie"), Hc.
  rewrite app_nil_r. now apply getAll_copied.
Qed.

(** Every upstream header other than [Set-Cookie] and the CORS headers is
    read back from the rebuilt header list with the value the upstream
    gave, normalised. *)
Lemma rebuild_other (up : Response.t) (request : Request.t URL) (url : URL)
  (n : string) :
  sameName n "Set-Cookie" = false ->
  isCorsName n = false ->
  get (rebuiltHeaders [] up request url) n
  = option_map normalize (get (Response.headers up) n).
Proof.
  intros Hc Hn. unfold get.
  rewrite (rebuild_other_values up request url n Hc Hn), has_getAll.
  destruct (getAll (Response.headers up) n); reflexivity.
Qed.

(** The constructor of the rebuilt response succeeds exactly on the
    rebuildable answers. *)
Lemma rebuild_some (up : Response.t) (request : Request.t URL) (url : URL) :
  rebuildable up = true ->
  rebuild up request url
  = Some (Response.mk (Response.status up) (Response.statusText up)
                      (rebuiltHeaders [] up request url) (rebuiltBody up)).
Proof.
  unfold rebuildable, rebuild, rebuiltBody, Response.construct. intros H.
  apply andb_prop in H as [H B]. apply andb_prop in H as [L U].
  apply Z.leb_le in L. apply Z.leb_le in U.
  assert (R : ((Response.status up <? 200) || (599 <? Response.status up))%Z
              = false).
  { apply orb_false_iff. split; apply Z.ltb_ge; lia. }
  rewrite R.
  destruct (Response.nullBodyStatus (Response.status up)); [|reflexivity].
  simpl in B. apply String.eqb_eq in B. rewrite B. reflexivity.
Qed.

Lemma rebuild_none (up : Response.t) (request : Request.t URL) (url : URL) :
  rebuildable up = false -> rebuild up request url = None.
Proof.
  unfold rebuildable, rebuild, Response.construct. intros H.
  destruct ((Response.status up <? 200) || (599 <? Response.status up))%Z
    eqn:R; [reflexivity|].
  apply orb_false_iff in R as [L U].
  apply Z.ltb_ge in L. apply Z.ltb_ge in U.
  apply Z.leb_le in L. apply Z.leb_le in U. rewrite L, U in H. simpl in H.
  destruct (Response.nullBodyStatus (Response.status up)); [|discriminate].
  simpl in H. destruct (Response.arrayBuffer up); [discriminate|reflexivity].
Qed.

Lemma rebuild_url_only (up : Response.t) (r1 r2 : Request.t URL) (url : URL) :
  Request.url r1 = Request.url r2 -> rebuild up r1 url = rebuild up r2 url.
Proof. intros H. unfold rebuild, rebuiltHeaders. now rewrite H. Qed.

Lemma redirect_constructed (up : Response.t) :
  Pages.isRedirect up = true ->
  Response.construct None (Response.status up) (Response.statusText up)
                     (Response.headers up)
  = Some (passThrough up).
Proof.
  unfold Pages.isRedirect, Response.construct. intros H.
  apply andb_prop in H as [H _]. apply andb_prop in H as [L U].
  apply Z.geb_le in L. apply Z.ltb_lt in U.
  assert (R : ((Response.status up <? 200) || (599 <? Response.status up))%Z
              = false).
  { apply orb_false_iff. split; apply Z.ltb_ge; lia. }
  now rewrite R.
Qed.

End Rebuild.

(* ================================================================== *)
(** * Runs of the handlers *)

Section Runs.

Lemma startsWith_app (s p q : string) :
  startsWith s (p ++ q) = true -> startsWith s p = true.
Proof.
  revert s. induction p as [|a p IH]; intros s; simpl; [reflexivity|].
  destruct s as [|b s]; [discriminate|].
  intros H. apply andb_prop in H as [H1 H2].
  rewrite H1. simpl. now apply IH.
Qed.

Lemma removeFirst_prefix (path : string) :
  startsWith path "/fly-api/" = true ->
  removeFirst path "/fly-api" = substring 8 (String.length path - 8) path.
Proof.
  intros H. apply (startsWith_app path "/fly-api" "/") in H.
  destruct path as [|c r]; [discriminate|].
  cbn [removeFirst]. rewrite H. reflexivity.
Qed.

Lemma upstreamRequest_url (rev : Revision) (request : Request.t URL) :
  startsWith (pathname (Request.url request)) (prefixOf rev) = true ->
  Request.url (upstreamRequest rev request)
  = (originOf rev
     ++ transformedPath rev (pathname (Request.url request))
     ++ search (Request.url request))%string.
Proof.
  destruct rev; intros H; try reflexivity.
  unfold upstreamRequest, Pages.modifiedRequest. cbn [Request.url].
  cbn [prefixOf] in H. now rewrite (removeFirst_prefix _ H).
Qed.

(** A proxied request makes one upstream call, whatever the upstream
    does. *)
Lemma worker_calls (rev : Revision) (request : Request.t URL) (net : Net) :
  startsWith (pathname (Request.url request)) (prefixOf rev) = true ->
  calls (worker rev request) net = [upstreamRequest rev request].
Proof.
  intros H. unfold calls.
  destruct rev; cbn [worker prefixOf upstreamRequest] in *;
    unfold Worker.fetch, Pages.handleRequest;
    cbn [apiPrefix flyApiConfig templateConfig]; rewrite H;
    unfold Worker.handleApiRequest, Pages.handleApiRequest, bind, fetch_;
    destruct (net _) as [up|]; try reflexivity;
    unfold lift; try (destruct (rebuild _ _ _); reflexivity).
  destruct (Pages.isRedirect up);
    [destruct (Response.construct _ _ _ _)|destruct (rebuild _ _ _)];
    reflexivity.
Qed.

(** The response to a proxied request the upstream answers. *)
Lemma worker_proxied (rev : Revision) (request : Request.t URL) (net : Net)
  (up : Response.t) :
  startsWith (pathname (Request.url request)) (prefixOf rev) = true ->
  net (upstreamRequest rev request) = Some up ->
  result (worker rev request) net =
  if passedThrough rev up then Some (passThrough up)
  else rebuild up request (Request.url request).
Proof.
  intros H N. unfold result.
  destruct rev; cbn [worker prefixOf upstreamRequest passedThrough] in *;
    unfold Worker.fetch, Pages.handleRequest;
    cbn [apiPrefix flyApiConfig templateConfig]; rewrite H;
    unfold Worker.handleApiRequest, Pages.handleApiRequest, bind, fetch_;
    rewrite N; unfold lift;
    try (destruct (rebuild _ _ _); reflexivity).
  destruct (Pages.isRedirect up) eqn:E.
  - rewrite (redirect_constructed up E). reflexivity.
  - destruct (rebuild _ _ _); reflexivity.
Qed.

End Runs.

(* ================================================================== *)
(** * Frame and second-pass lemmas for [modifyCookie] *)

Section CookieFrame.
Variable url : URL.

Lemma isOtherPart_rewriteSeg (seg : string) :
  isOtherPart (rewriteSeg url seg) = isOtherPart seg.
Proof.
  unfold isOtherPart.
  destruct (rewriteSeg_class url seg) as (-> & -> & ->). reflexivity.
Qed.

Lemma rewriteSeg_other (seg : string) :
  isOtherPart seg = true -> rewriteSeg url seg = seg.
Proof.
  unfold isOtherPart, rewriteSeg. intros H.
  apply negb_true_iff in H.
  apply orb_false_iff in H as [H C]. apply orb_false_iff in H as [D S].
  now rewrite D, S, C.
Qed.

Lemma filter_other_rewritten (attrs : list string) :
  filter isOtherPart (map (rewriteSeg url) attrs) = filter isOtherPart attrs.
Proof.
  induction attrs as [|seg attrs IH]; simpl; [reflexivity|].
  rewrite isOtherPart_rewriteSeg, IH.
  destruct (isOtherPart seg) eqn:O; [|reflexivity].
  now rewrite (rewriteSeg_other seg O).
Qed.

Lemma filter_other_missing (attrs : list string) :
  filter isOtherPart (missingParts url attrs) = [].
Proof.
  unfold missingParts.
  destruct (existsb isDomainPart attrs), (existsb isSameSitePart attrs),
           (existsb isSecurePart attrs); reflexivity.
Qed.

(** A segment in canonical form is left as it is by the loop body. *)
Lemma rewriteSeg_canonical (seg : string) :
  canonical url seg -> rewriteSeg url seg = seg.
Proof.
  intros (D & S & C). unfold rewriteSeg.
  destruct (isDomainPart seg); [now rewrite D|].
  destruct (isSameSitePart seg); [now rewrite S|].
  destruct (isSecurePart seg); [now rewrite C|reflexivity].
Qed.

Lemma trimEnd_cons (c : ascii) (s : string) :
  is_ws c = false -> trimEnd s = s -> trimEnd (String c s) = String c s.
Proof.
  intros W E. simpl. rewrite E, W. now destruct s.
Qed.

Lemma domainAttr_clean :
  hostnameSafe (hostname url) = true ->
  hasChar ";" (domainAttr url) = false /\ trim (domainAttr url) = domainAttr url.
Proof.
  unfold hostnameSafe, domainAttr. intros H.
  apply andb_prop in H as [H1 H2].
  apply negb_true_iff in H1. apply String.eqb_eq in H2.
  split.
  - rewrite hasChar_app, H1. reflexivity.
  - unfold trim. change (trimStart ("Domain=" ++ hostname url))
      with ("Domain=" ++ hostname url)%string.
    cbn [String.append].
    repeat (apply trimEnd_cons; [reflexivity|]). exact H2.
Qed.

(** With a safe hostname every segment the rewrite emits holds no [;] and
    is trimmed. *)
Lemma rewrittenParts_clean (cookie : string) :
  hostnameSafe (hostname url) = true ->
  Forall (fun p => hasChar ";" p = false /\ trim p = p)
         (rewrittenParts cookie url).
Proof.
  intros H. pose proof (domainAttr_clean H) as HD.
  pose proof (cookieParts_clean cookie) as HC.
  rewrite rewrittenParts_eq. unfold attributes.
  destruct (cookieParts cookie) as [|x attrs] eqn:E.
  { now destruct (cookieParts_nonempty cookie). }
  inversion HC as [|? ? Hx Ha]; subst. cbn [hd tl].
  constructor; [exact Hx|]. apply Forall_app. split.
  - apply Forall_map. eapply Forall_impl; [|exact Ha].
    intros seg Hs. unfold rewriteSeg.
    destruct (isDomainPart seg); [exact HD|].
    destruct (isSameSitePart seg); [split; reflexivity|].
    destruct (isSecurePart seg); [split; reflexivity|exact Hs].
  - unfold missingParts.
    destruct (existsb isDomainPart attrs), (existsb isSameSitePart attrs),
             (existsb isSecurePart attrs); simpl;
      repeat constructor; try exact (proj1 HD); try exact (proj2 HD).
Qed.

(** With a safe hostname the returned string parses back into the segments
    it was joined from. *)
Lemma cookieParts_rewritten (cookie : string) :
  hostnameSafe (hostname url) = true ->
  cookieParts (join "; " (rewrittenParts cookie url))
  = rewrittenParts cookie url.
Proof.
  intros H. pose proof (rewrittenParts_clean cookie H) as HC.
  rewrite rewrittenParts_eq in *. now apply cookieParts_join.
Qed.

Lemma count_pos_existsb (p : string -> bool) (l : list string) (n : nat) :
  count p l = Nat.max 1 n -> existsb p l = true.
Proof.
  intros H. rewrite existsb_count.
  destruct (count p l); [lia|reflexivity].
Qed.

(** A second pass over the emitted segments changes nothing. *)
Lemma second_pass (cookie : string) :
  let out := rewrittenParts cookie url in
  hd "" out :: map (rewriteSeg url) (tl out) ++ missingParts url (tl out)
  = out.
Proof.
  cbv zeta.
  pose proof (count_rewritten url cookie) as H. cbv zeta in H.
  destruct H as (C1 & C2 & C3).
  pose proof (rewritten_canonical url cookie) as HF.
  unfold missingParts.
  rewrite (count_pos_existsb _ _ _ C1), (count_pos_existsb _ _ _ C2),
          (count_pos_existsb _ _ _ C3).
  cbn [app]. rewrite app_nil_r.
  assert (M : forall l, Forall (canonical url) l ->
                        map (rewriteSeg url) l = l).
  { induction 1 as [|seg l Hs _ IH]; simpl; [reflexivity|].
    now rewrite IH, (rewriteSeg_canonical seg Hs). }
  rewrite (M _ HF). rewrite rewrittenParts_eq. reflexivity.
Qed.

End CookieFrame.

(* ================================================================== *)
(** * Properties of the cookie rewrite *)

(** With a safe hostname, a cookie that holds at most one recognised
    [Domain=], [SameSite=] and [Secure] comes back as a string with exactly
    one of each (the round-trip property of the specification). *)
Lemma modifyCookie_exactly_one (cookie : string) (url : URL) :
  cookie <> "" ->
  hostnameSafe (hostname url) = true ->
  count isDomainPart (attributes cookie) <= 1 ->
  count isSameSitePart (attributes cookie) <= 1 ->
  count isSecurePart (attributes cookie) <= 1 ->
  exists s, modifyCookie cookie url = Some s /\ exactlyOneOfEach s.
Proof.
  intros Hc Hh D S C. eexists. split; [now apply modifyCookie_some|].
  unfold exactlyOneOfEach, attributes.
  rewrite (cookieParts_rewritten url cookie Hh).
  pose proof (count_rewritten url cookie) as H. cbv zeta in H.
  destruct H as (-> & -> & ->). lia.
Qed.

(** C1, as stated, fails: a cookie with two [Domain=] attributes comes back
    with two, both rewritten; and with a hostname that holds a [;] the
    returned string has a second [Secure] segment, cut out of the [Domain]
    one. *)
Lemma duplicate_domain_kept :
  (exists s,
     modifyCookie "a=b; Domain=x; Domain=y" (example_com "/fly-api/login" None)
     = Some s
     /\ s = "a=b; Domain=example.com; Domain=example.com; SameSite=None; Secure"
     /\ count isDomainPart (attributes s) = 2
     /\ ~ exactlyOneOfEach s)
  /\ (exists s,
        modifyCookie "k=v" semicolonSecureHost = Some s
        /\ s = "k=v; Domain=x;secure; SameSite=None; Secure"
        /\ count isSecurePart (attributes s) = 2
        /\ ~ exactlyOneOfEach s).
Proof.
  split.
  - eexists. split; [reflexivity|]. split; [reflexivity|].
    split; [reflexivity|]. intros (D & _). vm_compute in D. discriminate.
  - eexists. split; [reflexivity|]. split; [reflexivity|].
    split; [reflexivity|]. intros (_ & _ & C). vm_compute in C.
    discriminate.
Qed.

(** C1 (amended).  For a non-empty cookie and a request URL whose hostname
    holds no [;] (and does not end in white space), the rewrite returns a
    string whose attribute segments (the string split at [;] and trimmed,
    without its first segment) hold, for each of [Domain=...],
    [SameSite=...] and bare [Secure], as many recognised segments as the
    input had among its attributes, and one when the input had none; each
    of them reads [Domain=<hostname>], [SameSite=None] or [Secure]. *)
Theorem modifyCookie_attribute_counts (cookie : string) (url : URL) :
  cookie <> "" ->
  hostnameSafe (hostname url) = true ->
  exists s,
    modifyCookie cookie url = Some s
    /\ count isDomainPart (attributes s)
       = Nat.max 1 (count isDomainPart (attributes cookie))
    /\ count isSameSitePart (attributes s)
       = Nat.max 1 (count isSameSitePart (attributes cookie))
    /\ count isSecurePart (attributes s)
       = Nat.max 1 (count isSecurePart (attributes cookie))
    /\ Forall (canonical url) (attributes s).
Proof.
  intros H Hh. eexists. split; [now apply modifyCookie_some|].
  unfold attributes at 1 3 5 7.
  rewrite (cookieParts_rewritten url cookie Hh).
  pose proof (count_rewritten url cookie) as C. cbv zeta in C.
  destruct C as (C1 & C2 & C3).
  repeat split; try assumption. apply rewritten_canonical.
Qed.

Lemma modifyCookie_attribute_counts_witness :
  "auth=abc; Path=/; secure; SECURE" <> ""
  /\ hostnameSafe (hostname (example_com "/fly-api/login" None)) = true
  /\ exists s,
       modifyCookie "auth=abc; Path=/; secure; SECURE"
                    (example_com "/fly-api/login" None) = Some s
       /\ count isDomainPart (attributes s)
          = Nat.max 1 (count isDomainPart
                         (attributes "auth=abc; Path=/; secure; SECURE"))
       /\ count isSameSitePart (attributes s)
          = Nat.max 1 (count isSameSitePart
                         (attributes "auth=abc; Path=/; secure; SECURE"))
       /\ count isSecurePart (attributes s)
          = Nat.max 1 (count isSecurePart
                         (attributes "auth=abc; Path=/; secure; SECURE"))
       /\ Forall (canonical (example_com "/fly-api/login" None))
                 (attributes s).
Proof.
  split; [discriminate|]. split; [reflexivity|].
  apply (modifyCookie_attribute_counts "auth=abc; Path=/; secure; SECURE"
           (example_com "/fly-api/login" None)); [discriminate|reflexivity].
Defined.

(** C3.  For a non-empty cookie, [modifyCookie] computes the algorithm of
    the specification: split at [;] and trim; keep the first segment;
    replace in place every [Domain=<anything>] by [Domain=<hostname>], every
    [SameSite=<anything>] by [SameSite=None] and every bare [Secure] by
    [Secure]; append those of [Domain=<hostname>], [SameSite=None],
    [Secure] that were not seen, in that order; join with [; ]. *)
Theorem modifyCookie_follows_algorithm (cookie : string) (url : URL) :
  cookie <> "" ->
  modifyCookie cookie url = Some (Spec.rewrite cookie (hostname url)).
Proof.
  intros H. rewrite (modifyCookie_some url cookie H), rewrittenParts_eq.
  unfold Spec.rewrite, attributes, cookieParts.
  rewrite missingParts_spec.
  rewrite (map_ext _ _ (rewriteSeg_spec url)). reflexivity.
Qed.

Lemma modifyCookie_follows_algorithm_witness :
  "auth=abc; Path=/; DOMAIN=backend.example; samesite=Lax" <> ""
  /\ modifyCookie "auth=abc; Path=/; DOMAIN=backend.example; samesite=Lax"
                  (example_com "/api/users" None)
     = Some (Spec.rewrite
               "auth=abc; Path=/; DOMAIN=backend.example; samesite=Lax"
               "example.com").
Proof.
  split; [discriminate|].
  apply (modifyCookie_follows_algorithm
           "auth=abc; Path=/; DOMAIN=backend.example; samesite=Lax"
           (example_com "/api/users" None)).
  discriminate.
Defined.

(** C6.  For a non-empty cookie the rewrite keeps the first segment
    (mainPart) as the first segment of its output, and the segments it does
    not recognise ([Path=/], [HttpOnly], [Expires=...], [Max-Age=...], ...)
    unchanged, at the positions they had and so in their original order. *)
Theorem modifyCookie_keeps_other_attributes (cookie : string) (url : URL) :
  cookie <> "" ->
  modifyCookie cookie url = Some (join "; " (rewrittenParts cookie url))
  /\ hd "" (rewrittenParts cookie url) = hd "" (cookieParts cookie)
  /\ filter isOtherPart (tl (rewrittenParts cookie url))
     = filter isOtherPart (attributes cookie)
  /\ forall i seg,
       nth_error (attributes cookie) i = Some seg ->
       isOtherPart seg = true ->
       nth_error (tl (rewrittenParts cookie url)) i = Some seg.
Proof.
  intros H. split; [now apply modifyCookie_some|].
  rewrite rewrittenParts_eq. cbn [hd tl].
  split; [reflexivity|]. split.
  - rewrite filter_app, filter_other_rewritten, filter_other_missing.
    apply app_nil_r.
  - intros i seg Hi Ho.
    rewrite nth_error_app1.
    2:{ rewrite length_map. apply nth_error_Some. congruence. }
    rewrite nth_error_map, Hi. simpl. now rewrite rewriteSeg_other.
Qed.

Lemma modifyCookie_keeps_other_attributes_witness :
  "sid=1; Path=/; Domain=b.example; HttpOnly; Expires=Wed, 21 Oct 2026" <> ""
  /\ filter isOtherPart
       (tl (rewrittenParts
              "sid=1; Path=/; Domain=b.example; HttpOnly; Expires=Wed, 21 Oct 2026"
              (example_com "/api/users" None)))
     = ["Path=/"; "HttpOnly"; "Expires=Wed, 21 Oct 2026"].
Proof.
  split; [discriminate|].
  apply (modifyCookie_keeps_other_attributes
           "sid=1; Path=/; Domain=b.example; HttpOnly; Expires=Wed, 21 Oct 2026"
           (example_com "/api/users" None)).
  discriminate.
Defined.

(** C10, as stated, fails: with a hostname that holds a [;] the second
    rewrite cuts the [Domain] segment in two and returns another string. *)
Lemma second_rewrite_differs :
  exists s,
    modifyCookie "k=v" semicolonHost = Some s
    /\ s = "k=v; Domain=x;y; SameSite=None; Secure"
    /\ modifyCookie s semicolonHost
       = Some "k=v; Domain=x;y; y; SameSite=None; Secure"
    /\ modifyCookie s semicolonHost <> Some s.
Proof.
  eexists. split; [reflexivity|]. split; [reflexivity|].
  split; [reflexivity|]. discriminate.
Qed.

(** C10 (amended).  For a request URL whose hostname holds no [;] (and does
    not end in white space), the rewrite is idempotent: when it returns [s]
    for a cookie, it returns [s] for [s]. *)
Theorem modifyCookie_idempotent (cookie s : string) (url : URL) :
  hostnameSafe (hostname url) = true ->
  modifyCookie cookie url = Some s ->
  modifyCookie s url = Some s.
Proof.
  intros Hh Hs. pose proof (modifyCookie_truthy _ _ _ Hs) as T.
  assert (Hc : cookie <> "").
  { intros ->. discriminate. }
  rewrite (modifyCookie_some url cookie Hc) in Hs. injection Hs as <-.
  rewrite modifyCookie_some.
  2:{ intros E. rewrite E in T. discriminate. }
  f_equal. f_equal.
  rewrite (rewrittenParts_eq url (join "; " (rewrittenParts cookie url))).
  unfold attributes. rewrite (cookieParts_rewritten url cookie Hh).
  apply second_pass.
Qed.

Lemma modifyCookie_idempotent_witness :
  hostnameSafe (hostname (example_com "/fly-api/login" None)) = true
  /\ modifyCookie "auth_token=abc123; Path=/; Domain=backend.fly.dev; SameSite=Lax"
                  (example_com "/fly-api/login" None)
     = Some "auth_token=abc123; Path=/; Domain=example.com; SameSite=None; Secure"
  /\ modifyCookie
       "auth_token=abc123; Path=/; Domain=example.com; SameSite=None; Secure"
       (example_com "/fly-api/login" None)
     = Some "auth_token=abc123; Path=/; Domain=example.com; SameSite=None; Secure".
Proof.
  split; [reflexivity|]. split; [reflexivity|].
  apply (modifyCookie_idempotent
           "auth_token=abc123; Path=/; Domain=backend.fly.dev; SameSite=Lax"
           _ (example_com "/fly-api/login" None)); reflexivity.
Defined.

(* ================================================================== *)
(** * Properties of the forwarding and of the rebuilt response *)

(** C2.  The second revision of [src/index.ts] hands the upstream request
    to [fetch] with redirect mode [manual], once.  When the upstream answers
    with a status in [300,400) and a [Location] header, the handler returns
    the upstream's status, status text and header list as they are, with no
    body.  Any other answer, a 3xx without [Location] included, is final:
    the handler's result is that of the rebuild, which for an answer the
    response constructor accepts is a response with the upstream's status
    and status text, the body bytes (a null body for status 204, 205 or
    304), the rewritten cookies and the CORS headers, and otherwise a
    throw. *)
Theorem redirect_classification (request : Request.t URL) (url : URL)
  (net : Net) (up : Response.t) :
  net (Pages.modifiedRequest request url) = Some up ->
  Request.redirect (Pages.modifiedRequest request url) = Manual
  /\ calls (Pages.handleApiRequest request url) net
     = [Pages.modifiedRequest request url]
  /\ ((300 <= Response.status up < 400)%Z
      /\ Headers.has (Response.headers up) "Location" = true ->
      result (Pages.handleApiRequest request url) net
      = Some (passThrough up))
  /\ (~ ((300 <= Response.status up < 400)%Z
         /\ Headers.has (Response.headers up) "Location" = true) ->
      result (Pages.handleApiRequest request url) net
      = rebuild up request url
      /\ (rebuildable up = false ->
          result (Pages.handleApiRequest request url) net = None)
      /\ (rebuildable up = true ->
          exists resp,
            result (Pages.handleApiRequest request url) net = Some resp
            /\ Response.status resp = Response.status up
            /\ Response.statusText resp = Response.statusText up
            /\ Response.body resp = rebuiltBody up
            /\ Headers.getAll (Response.headers resp) "Set-Cookie"
               = map Headers.normalize
                   (keepSome
                      (map (fun c => modifyCookie c (Request.url request))
                           (Headers.getAll (Response.headers up)
                                           "Set-Cookie")))
            /\ Headers.getAll (Response.headers resp)
                              "Access-Control-Allow-Origin"
               = [Headers.normalize (origin url)])).
Proof.
  intros N. split; [reflexivity|].
  assert (R : Pages.isRedirect up = true <->
              (300 <= Response.status up < 400)%Z
              /\ Headers.has (Response.headers up) "Location" = true).
  { unfold Pages.isRedirect. rewrite !andb_true_iff, Z.geb_le, Z.ltb_lt.
    tauto. }
  unfold calls, result, Pages.handleApiRequest, bind, fetch_, lift.
  rewrite N.
  destruct (Pages.isRedirect up) eqn:E.
  - rewrite (redirect_constructed up E).
    split; [reflexivity|]. split; [reflexivity|].
    intros H. exfalso. apply H. now apply R.
  - split; [destruct (rebuild up request url); reflexivity|]. split.
    + intros H. apply R in H. discriminate.
    + intros _.
      split; [destruct (rebuild up request url); reflexivity|]. split.
      * intros B. now rewrite (rebuild_none up request url B).
      * intros B. rewrite (rebuild_some up request url B). cbn [fst].
        eexists. split; [reflexivity|]. cbn [Response.status
          Response.statusText Response.body Response.headers].
        repeat split; try reflexivity.
        -- apply rebuild_cookies.
        -- apply rebuild_cors.
Qed.

Lemma redirect_classification_witness :
  (answering notModified
    (Pages.modifiedRequest
       (get_request (example_com "/fly-api/login" None))
       (example_com "/fly-api/login" None))
  = Some notModified
  /\ ~ ((300 <= Response.status notModified < 400)%Z
        /\ Headers.has (Response.headers notModified) "Location" = true)
  /\ rebuildable notModified = true
  /\ exists resp,
       result (Pages.handleApiRequest
                 (get_request (example_com "/fly-api/login" None))
                 (example_com "/fly-api/login" None))
              (answering notModified) = Some resp
       /\ Response.status resp = 304%Z
       /\ Response.body resp = None
       /\ Headers.getAll (Response.headers resp) "Set-Cookie"
          = ["sid=1; Path=/; Domain=example.com; SameSite=None; Secure"]
       /\ Headers.getAll (Response.headers resp)
                         "Access-Control-Allow-Origin"
          = ["http://example.com"])
  /\ result (Pages.handleApiRequest
               (get_request (example_com "/fly-api/login" None))
               (example_com "/fly-api/login" None))
            (answering foundElsewhere)
     = Some (Response.mk 302 "Found" [("Location", "https://x/y")] None).
Proof.
  split.
  2:{ apply (redirect_classification
               (get_request (example_com "/fly-api/login" None))
               (example_com "/fly-api/login" None)
               (answering foundElsewhere) foundElsewhere eq_refl).
      split; [simpl; lia|reflexivity]. }
  split; [reflexivity|].
  assert (NR : ~ ((300 <= Response.status notModified < 400)%Z
                  /\ Headers.has (Response.headers notModified) "Location"
                     = true))
    by (intros [_ L]; discriminate).
  split; [exact NR|]. split; [reflexivity|].
  destruct (redirect_classification
              (get_request (example_com "/fly-api/login" None))
              (example_com "/fly-api/login" None)
              (answering notModified) notModified eq_refl)
    as (_ & _ & _ & F).
  destruct (F NR) as (_ & _ & S).
  destruct (S eq_refl) as (resp & R & St & _ & B & C & O).
  exists resp. split; [exact R|]. split; [exact St|]. split; [exact B|].
  split; [rewrite C|rewrite O]; reflexivity.
Defined.

(** C4, as stated, fails: for a request without a query the upstream URL
    ends with the path, not with a question mark (the URL the test suite
    expects). *)
Lemma no_question_mark_without_query :
  startsWith (pathname (example_com "/fly-api/users" None))
             (prefixOf FlyApiPages) = true
  /\ map Request.url
       (calls (worker FlyApiPages
                 (get_request (example_com "/fly-api/users" None)))
              unreachable)
     = ["https://laclipasa-backend.fly.dev/users"]
  /\ map Request.url
       (calls (worker FlyApiPages
                 (get_request (example_com "/fly-api/users" None)))
              unreachable)
     <> [Spec.upstreamUrl (originOf FlyApiPages)
           (transformedPath FlyApiPages "/fly-api/users")
           (queryText (example_com "/fly-api/users" None))].
Proof.
  split; [reflexivity|]. split; [reflexivity|]. discriminate.
Qed.

(** C4 (amended).  For a request whose path starts with the prefix, the
    worker makes one upstream call, to the URL
    [origin + transformedPath + search], where [search] is [?] followed by
    the query when the request has a non-empty query and is empty otherwise,
    and [transformedPath] is the path as it is (first revision, template)
    or the path without its leading [/fly-api] (second revision). *)
Theorem upstream_url (rev : Revision) (request : Request.t URL) (net : Net) :
  startsWith (pathname (Request.url request)) (prefixOf rev) = true ->
  map Request.url (calls (worker rev request) net)
  = [(originOf rev
      ++ transformedPath rev (pathname (Request.url request))
      ++ search (Request.url request))%string].
Proof.
  intros H. rewrite (worker_calls rev request net H). simpl.
  now rewrite upstreamRequest_url.
Qed.

Lemma upstream_url_witness :
  startsWith (pathname (example_com "/fly-api/users" (Some "page=2")))
             (prefixOf FlyApiPages) = true
  /\ map Request.url
       (calls (worker FlyApiPages
                 (get_request (example_com "/fly-api/users" (Some "page=2"))))
              (answering mockResponse))
     = ["https://laclipasa-backend.fly.dev/users?page=2"].
Proof.
  split; [reflexivity|].
  apply (upstream_url FlyApiPages
           (get_request (example_com "/fly-api/users" (Some "page=2")))
           (answering mockResponse)).
  reflexivity.
Defined.

(** C5.  For a proxied request whose upstream answer is not passed through
    as a redirect and is accepted by the response constructor, the
    [Set-Cookie] values of the response are the rewrites of the upstream's
    [Set-Cookie] values that are not dropped, one header each, in the
    upstream's order; each is stored as the header list stores a value,
    without the white space around it. *)
Theorem cookies_kept_apart (rev : Revision) (request : Request.t URL)
  (net : Net) (up : Response.t) :
  startsWith (pathname (Request.url request)) (prefixOf rev) = true ->
  net (upstreamRequest rev request) = Some up ->
  passedThrough rev up = false ->
  rebuildable up = true ->
  exists resp,
    result (worker rev request) net = Some resp
    /\ Headers.getAll (Response.headers resp) "Set-Cookie"
       = map Headers.normalize
           (keepSome (map (fun c => modifyCookie c (Request.url request))
                        (Headers.getAll (Response.headers up) "Set-Cookie")))
    /\ length (Headers.getAll (Response.headers resp) "Set-Cookie")
       = length (filter truthy
                   (Headers.getAll (Response.headers up) "Set-Cookie")).
Proof.
  intros H N P B. eexists. split.
  - rewrite (worker_proxied rev request net up H N), P.
    apply (rebuild_some up request _ B).
  - cbn [Response.headers]. rewrite rebuild_cookies.
    split; [reflexivity|]. rewrite length_map.
    induction (Headers.getAll (Response.headers up) "Set-Cookie")
      as [|c cs IH]; simpl; [reflexivity|].
    destruct c as [|a c]; [exact IH|]. simpl. now rewrite IH.
Qed.

Lemma cookies_kept_apart_witness :
  startsWith (pathname (example_com "/fly-api/login" None))
             (prefixOf FlyApi) = true
  /\ answering twoCookies
       (upstreamRequest FlyApi
          (get_request (example_com "/fly-api/login" None)))
     = Some twoCookies
  /\ passedThrough FlyApi twoCookies = false
  /\ rebuildable twoCookies = true
  /\ exists resp,
       result (worker FlyApi (get_request (example_com "/fly-api/login" None)))
              (answering twoCookies) = Some resp
       /\ Headers.getAll (Response.headers resp) "Set-Cookie"
          = ["auth_token=abc123; Path=/; Domain=example.com; SameSite=None; Secure";
             "session=xyz789; Path=/; Domain=example.com; SameSite=None; Secure"].
Proof.
  split; [reflexivity|]. split; [reflexivity|]. split; [reflexivity|].
  split; [reflexivity|].
  destruct (cookies_kept_apart FlyApi
              (get_request (example_com "/fly-api/login" None))
              (answering twoCookies) twoCookies
              eq_refl eq_refl eq_refl eq_refl)
    as (resp & R & C & _).
  exists resp. split; [exact R|]. rewrite C. reflexivity.
Defined.

(** C7.  For a proxied request whose upstream answer is not passed through
    as a redirect and is accepted by the response constructor, the response
    holds under each of the four CORS names exactly one value, whatever the
    upstream sent under that name: the origin (scheme and host) of the
    inbound request, which as the origin of a parsed URL has no white space
    around it, ["true"], ["GET, POST, PUT, DELETE, OPTIONS"] and
    ["Content-Type, Authorization"]. *)
Theorem cors_headers_set (rev : Revision) (request : Request.t URL)
  (net : Net) (up : Response.t) :
  startsWith (pathname (Request.url request)) (prefixOf rev) = true ->
  net (upstreamRequest rev request) = Some up ->
  passedThrough rev up = false ->
  rebuildable up = true ->
  Headers.normalize (origin (Request.url request))
  = origin (Request.url request) ->
  exists resp,
    result (worker rev request) net = Some resp
    /\ Headers.getAll (Response.headers resp) "Access-Control-Allow-Origin"
       = [origin (Request.url request)]
    /\ Headers.getAll (Response.headers resp)
                      "Access-Control-Allow-Credentials" = ["true"]
    /\ Headers.getAll (Response.headers resp) "Access-Control-Allow-Methods"
       = ["GET, POST, PUT, DELETE, OPTIONS"]
    /\ Headers.getAll (Response.headers resp) "Access-Control-Allow-Headers"
       = ["Content-Type, Authorization"].
Proof.
  intros H N P B O. eexists. split.
  - rewrite (worker_proxied rev request net up H N), P.
    apply (rebuild_some up request _ B).
  - cbn [Response.headers].
    pose proof (rebuild_cors up request (Request.url request)) as C.
    cbv zeta in C. rewrite O in C. exact C.
Qed.

Lemma cors_headers_set_witness :
  startsWith (pathname (example_com "/fly-api/data" None))
             (prefixOf FlyApiPages) = true
  /\ answering permissiveUpstream
       (upstreamRequest FlyApiPages
          (get_request (example_com "/fly-api/data" None)))
     = Some permissiveUpstream
  /\ passedThrough FlyApiPages permissiveUpstream = false
  /\ rebuildable permissiveUpstream = true
  /\ Headers.normalize (origin (example_com "/fly-api/data" None))
     = origin (example_com "/fly-api/data" None)
  /\ exists resp,
       result (worker FlyApiPages
                 (get_request (example_com "/fly-api/data" None)))
              (answering permissiveUpstream) = Some resp
       /\ Headers.getAll (Response.headers resp) "Access-Control-Allow-Origin"
          = ["http://example.com"].
Proof.
  split; [reflexivity|]. split; [reflexivity|]. split; [reflexivity|].
  split; [reflexivity|]. split; [reflexivity|].
  destruct (cors_headers_set FlyApiPages
              (get_request (example_com "/fly-api/data" None))
              (answering permissiveUpstream) permissiveUpstream
              eq_refl eq_refl eq_refl eq_refl eq_refl)
    as (resp & R & C & _).
  exists resp. split; [exact R|exact C].
Defined.

Lemma keepSome_app {A} (a b : list (option A)) :
  keepSome (a ++ b) = keepSome a ++ keepSome b.
Proof.
  induction a as [|[x|] a IH]; simpl; [reflexivity| |exact IH].
  now rewrite IH.
Qed.

(** C8.  [modifyCookie] returns nothing exactly for the empty string; and
    when one of the upstream's [Set-Cookie] values is empty, the response of
    an answer the constructor accepts is produced all the same, with the
    rewrites of the values before and after the empty one, the upstream's
    other headers and the CORS headers, each value stored as the header
    list stores it. *)
Theorem empty_cookie_dropped (rev : Revision) (request : Request.t URL)
  (net : Net) (up : Response.t) (before after : list string) :
  startsWith (pathname (Request.url request)) (prefixOf rev) = true ->
  net (upstreamRequest rev request) = Some up ->
  passedThrough rev up = false ->
  rebuildable up = true ->
  Headers.getAll (Response.headers up) "Set-Cookie" = before ++ "" :: after ->
  (forall cookie url, modifyCookie cookie url = None <-> cookie = "")
  /\ exists resp,
       result (worker rev request) net = Some resp
       /\ Headers.getAll (Response.headers resp) "Set-Cookie"
          = map Headers.normalize
              (keepSome (map (fun c => modifyCookie c (Request.url request))
                           before))
            ++ map Headers.normalize
                 (keepSome (map (fun c => modifyCookie c (Request.url request))
                              after))
       /\ (forall name,
             Headers.sameName name "Set-Cookie" = false ->
             isCorsName name = false ->
             Headers.get (Response.headers resp) name
             = option_map Headers.normalize
                          (Headers.get (Response.headers up) name))
       /\ Headers.getAll (Response.headers resp) "Access-Control-Allow-Origin"
          = [Headers.normalize (origin (Request.url request))]
       /\ Response.status resp = Response.status up.
Proof.
  intros H N P B C. split.
  - intros cookie url. apply modifyCookie_none.
  - eexists. split.
    + rewrite (worker_proxied rev request net up H N), P.
      apply (rebuild_some up request _ B).
    + cbn [Response.headers Response.status]. split.
      * rewrite rebuild_cookies, C, map_app, keepSome_app, map_app.
        reflexivity.
      * split; [intros name; apply rebuild_other|].
        split; [apply rebuild_cors|reflexivity].
Qed.

Lemma empty_cookie_dropped_witness :
  startsWith (pathname (example_com "/fly-api/login" None))
             (prefixOf FlyApi) = true
  /\ answering twoCookies
       (upstreamRequest FlyApi
          (get_request (example_com "/fly-api/login" None)))
     = Some twoCookies
  /\ passedThrough FlyApi twoCookies = false
  /\ rebuildable twoCookies = true
  /\ Headers.getAll (Response.headers twoCookies) "Set-Cookie"
     = ["auth_token=abc123; Path=/; Domain=laclipasa-backend.fly.dev"]
       ++ "" :: ["session=xyz789; Path=/; Domain=laclipasa-backend.fly.dev"]
  /\ exists resp,
       result (worker FlyApi (get_request (example_com "/fly-api/login" None)))
              (answering twoCookies) = Some resp
       /\ Headers.getAll (Response.headers resp) "Set-Cookie"
          = ["auth_token=abc123; Path=/; Domain=example.com; SameSite=None; Secure";
             "session=xyz789; Path=/; Domain=example.com; SameSite=None; Secure"].
Proof.
  split; [reflexivity|]. split; [reflexivity|]. split; [reflexivity|].
  split; [reflexivity|]. split; [reflexivity|].
  destruct (empty_cookie_dropped FlyApi
              (get_request (example_com "/fly-api/login" None))
              (answering twoCookies) twoCookies
              ["auth_token=abc123; Path=/; Domain=laclipasa-backend.fly.dev"]
              ["session=xyz789; Path=/; Domain=laclipasa-backend.fly.dev"]
              eq_refl eq_refl eq_refl eq_refl eq_refl)
    as (_ & resp & R & C & _).
  exists resp. split; [exact R|]. rewrite C. reflexivity.
Defined.

(** C9.  In the first revision of [src/index.ts] and in the template
    revision, a request whose path does not start with the prefix gets a
    response with status 200 whose body is the notice naming the prefix,
    and no upstream call is made. *)
Theorem fallback_notice (cfg : Config) (request : Request.t URL) (net : Net) :
  In cfg [flyApiConfig; templateConfig] ->
  startsWith (pathname (Request.url request)) (apiPrefix cfg) = false ->
  exists resp,
    result (Worker.fetch cfg request) net = Some resp
    /\ Response.status resp = 200%Z
    /\ Response.body resp
       = Some ("This is a proxy worker. API requests should be sent to "
               ++ apiPrefix cfg ++ "...")%string
    /\ calls (Worker.fetch cfg request) net = [].
Proof.
  intros Hc H. unfold result, calls, Worker.fetch. rewrite H.
  eexists. split; [reflexivity|]. split; [reflexivity|].
  split; [|reflexivity].
  destruct Hc as [<- | [<- | []]]; reflexivity.
Qed.

Lemma fallback_notice_witness :
  In flyApiConfig [flyApiConfig; templateConfig]
  /\ startsWith (pathname (example_com "/" None)) (apiPrefix flyApiConfig)
     = false
  /\ exists resp,
       result (Worker.fetch flyApiConfig (get_request (example_com "/" None)))
              unreachable = Some resp
       /\ Response.status resp = 200%Z
       /\ Response.body resp
          = Some "This is a proxy worker. API requests should be sent to /fly-api/..."
       /\ calls (Worker.fetch flyApiConfig
                   (get_request (example_com "/" None))) unreachable = [].
Proof.
  split; [now left|]. split; [reflexivity|].
  apply (fallback_notice flyApiConfig (get_request (example_com "/" None))
           unreachable); [now left|reflexivity].
Defined.

(* ================================================================== *)
(** * Further lemmas on the rewrite and on the rebuilt response *)

Section MoreFacts.
Import Headers.

Lemma substring_all (s : string) : substring 0 (String.length s) s = s.
Proof. induction s as [|c s IH]; simpl; [reflexivity|now rewrite IH]. Qed.

Lemma In_keepSome {A B} (f : A -> option B) (l : list A) (b : B) :
  In b (keepSome (map f l)) -> exists a, In a l /\ f a = Some b.
Proof.
  induction l as [|a l IH]; simpl; [intros []|].
  destruct (f a) as [x|] eqn:E.
  - intros [<- | H]; [eauto|].
    destruct (IH H) as (a' & Ha & Hf). eauto.
  - intros H. destruct (IH H) as (a' & Ha & Hf). eauto.
Qed.

Lemma count_pos_In (p : string -> bool) (l : list string) (n : nat) :
  count p l = Nat.max 1 n -> exists seg, In seg l /\ p seg = true.
Proof.
  intros H. apply count_pos_existsb in H.
  apply existsb_exists in H. exact H.
Qed.

(** The three canonical attributes are among the segments emitted after
    the first. *)
Lemma rewritten_has_three (cookie : string) (url : URL) :
  In (domainAttr url) (tl (rewrittenParts cookie url))
  /\ In "SameSite=None" (tl (rewrittenParts cookie url))
  /\ In "Secure" (tl (rewrittenParts cookie url)).
Proof.
  pose proof (count_rewritten url cookie) as H. cbv zeta in H.
  destruct H as (C1 & C2 & C3).
  pose proof (rewritten_canonical url cookie) as HF.
  rewrite Forall_forall in HF.
  destruct (count_pos_In _ _ _ C1) as (a & Ha & Pa).
  destruct (count_pos_In _ _ _ C2) as (b & Hb & Pb).
  destruct (count_pos_In _ _ _ C3) as (c & Hc & Pc).
  destruct (HF a Ha) as (Da & _ & _).
  destruct (HF b Hb) as (_ & Sb & _).
  destruct (HF c Hc) as (_ & _ & Cc).
  rewrite <- (Da Pa), <- (Sb Pb), <- (Cc Pc). auto.
Qed.

Lemma count_kinds_le (l : list string) :
  count isDomainPart l + count isSameSitePart l + count isSecurePart l
  <= length l.
Proof.
  unfold count. induction l as [|seg l IH]; simpl; [lia|].
  destruct (recognisers_exclusive seg) as [HD HS].
  destruct (isDomainPart seg) eqn:D.
  - destruct (HD eq_refl) as [-> ->]. simpl. lia.
  - destruct (isSameSitePart seg) eqn:S.
    + rewrite (HS eq_refl). simpl. lia.
    + destruct (isSecurePart seg); simpl; lia.
Qed.

Lemma missingParts_length (url : URL) (attrs : list string) :
  length (missingParts url attrs) <= 3.
Proof.
  unfold missingParts.
  destruct (existsb isDomainPart attrs), (existsb isSameSitePart attrs),
           (existsb isSecurePart attrs); simpl; lia.
Qed.

Lemma cookieParts_split (cookie : string) :
  cookieParts cookie = hd "" (cookieParts cookie) :: attributes cookie.
Proof.
  unfold attributes. pose proof (cookieParts_nonempty cookie) as H.
  destruct (cookieParts cookie); [congruence|reflexivity].
Qed.

Lemma sameKind_rewriteSeg (url : URL) (a b : string) :
  sameKind a b = true ->
  rewriteSeg url a = rewriteSeg url b
  /\ isDomainPart a = isDomainPart b
  /\ isSameSitePart a = isSameSitePart b
  /\ isSecurePart a = isSecurePart b.
Proof.
  unfold sameKind, rewriteSeg.
  destruct (recognisers_exclusive a) as [HDa HSa].
  destruct (recognisers_exclusive b) as [HDb HSb].
  destruct (isDomainPart a) eqn:Da.
  - intros Db. rewrite Db.
    destruct (HDa eq_refl) as [-> ->]. destruct (HDb Db) as [-> ->]. auto.
  - destruct (isSameSitePart a) eqn:Sa.
    + intros Sb. rewrite Sb, (HSa eq_refl), (HSb Sb).
      destruct (isDomainPart b) eqn:Db; [|auto].
      destruct (HDb eq_refl) as [E _]. congruence.
    + destruct (isSecurePart a) eqn:Ca.
      * intros Cb. rewrite Cb.
        destruct (isDomainPart b) eqn:Db.
        { destruct (HDb eq_refl) as [_ E]. congruence. }
        destruct (isSameSitePart b) eqn:Sb; [|auto].
        pose proof (HSb eq_refl). congruence.
      * intros E. apply String.eqb_eq in E. subst b.
        now rewrite Da, Sa, Ca.
Qed.

Lemma sameKind_lists (url : URL) (l1 l2 : list string) :
  Forall2 (fun a b => sameKind a b = true) l1 l2 ->
  map (rewriteSeg url) l1 = map (rewriteSeg url) l2
  /\ existsb isDomainPart l1 = existsb isDomainPart l2
  /\ existsb isSameSitePart l1 = existsb isSameSitePart l2
  /\ existsb isSecurePart l1 = existsb isSecurePart l2.
Proof.
  induction 1 as [|a b l1 l2 K _ IH]; simpl; [auto|].
  destruct IH as (-> & -> & -> & ->).
  destruct (sameKind_rewriteSeg url a b K) as (-> & -> & -> & ->). auto.
Qed.

End MoreFacts.

(* ================================================================== *)
(** * Further properties of the forwarding *)

(** X1.  A proxied request is handed on with the inbound method, header
    list and body as they are; the redirect mode is [follow] in the first
    revision and the template and [manual] in the second revision. *)
Theorem request_forwarded (rev : Revision) (request : Request.t URL)
  (net : Net) :
  startsWith (pathname (Request.url request)) (prefixOf rev) = true ->
  exists r,
    calls (worker rev request) net = [r]
    /\ Request.method r = Request.method request
    /\ Request.headers r = Request.headers request
    /\ Request.body r = Request.body request
    /\ Request.redirect r = redirectOf rev.
Proof.
  intros H. exists (upstreamRequest rev request).
  split; [now apply worker_calls|]. destruct rev; repeat split.
Qed.

Lemma request_forwarded_witness :
  startsWith (pathname (example_com "/fly-api/data" None)) (prefixOf FlyApi)
  = true
  /\ exists r,
       calls (worker FlyApi (post_request (example_com "/fly-api/data" None)))
             unreachable = [r]
       /\ Request.method r = "POST"
       /\ Request.headers r
          = [("Content-Type", "text/plain");
             ("Authorization", "Bearer token123")]
       /\ Request.body r = Some "test=true"
       /\ Request.redirect r = Follow.
Proof.
  split; [reflexivity|].
  apply (request_forwarded FlyApi
           (post_request (example_com "/fly-api/data" None)) unreachable).
  reflexivity.
Defined.

(** X2.  When the upstream call of a proxied request is rejected, the
    handler is rejected too: no response is produced, and the one call made
    is not repeated. *)
Theorem upstream_failure_propagates (rev : Revision)
  (request : Request.t URL) (net : Net) :
  startsWith (pathname (Request.url request)) (prefixOf rev) = true ->
  net (upstreamRequest rev request) = None ->
  result (worker rev request) net = None
  /\ calls (worker rev request) net = [upstreamRequest rev request].
Proof.
  intros H N. split; [|now apply worker_calls].
  unfold result.
  destruct rev; cbn [worker prefixOf upstreamRequest] in *;
    unfold Worker.fetch, Pages.handleRequest;
    cbn [apiPrefix flyApiConfig templateConfig]; rewrite H;
    unfold Worker.handleApiRequest, Pages.handleApiRequest, bind, fetch_;
    now rewrite N.
Qed.

Lemma upstream_failure_propagates_witness :
  startsWith (pathname (example_com "/api/users" None)) (prefixOf Template)
  = true
  /\ unreachable
       (upstreamRequest Template (get_request (example_com "/api/users" None)))
     = None
  /\ result (worker Template (get_request (example_com "/api/users" None)))
            unreachable = None.
Proof.
  split; [reflexivity|]. split; [reflexivity|].
  apply (upstream_failure_propagates Template
           (get_request (example_com "/api/users" None)) unreachable);
    reflexivity.
Defined.

(** X3.  In the second revision a request whose path does not start with
    [/fly-api/] is handed to [fetch] as it is, once, and what [fetch] gives
    is the handler's result: the response is returned untouched (no cookie
    rewriting, no CORS headers), a rejection is passed on. *)
Theorem other_paths_forwarded (request : Request.t URL) (net : Net) :
  startsWith (pathname (Request.url request)) "/fly-api/" = false ->
  result (Pages.handleRequest request) net = net (Pages.forwarded request)
  /\ calls (Pages.handleRequest request) net = [Pages.forwarded request]
  /\ Request.url (Pages.forwarded request) = href (Request.url request)
  /\ Request.method (Pages.forwarded request) = Request.method request
  /\ Request.headers (Pages.forwarded request) = Request.headers request
  /\ Request.body (Pages.forwarded request) = Request.body request.
Proof.
  intros H. unfold result, calls, Pages.handleRequest. rewrite H.
  repeat split.
Qed.

Lemma other_paths_forwarded_witness :
  startsWith (pathname (example_com "/index.html" (Some "v=1"))) "/fly-api/"
  = false
  /\ result (Pages.handleRequest
               (get_request (example_com "/index.html" (Some "v=1"))))
            (answering mockResponse) = Some mockResponse
  /\ map Request.url
       (calls (Pages.handleRequest
                 (get_request (example_com "/index.html" (Some "v=1"))))
              (answering mockResponse))
     = ["http://example.com/index.html?v=1"].
Proof.
  split; [reflexivity|].
  destruct (other_paths_forwarded
              (get_request (example_com "/index.html" (Some "v=1")))
              (answering mockResponse) eq_refl) as (R & C & _).
  split; [exact R|]. rewrite C. reflexivity.
Defined.

(** X4.  Whatever the request and whatever the upstream does, a handler
    makes at most one upstream call: nothing is retried or fetched twice. *)
Theorem at_most_one_call (rev : Revision) (request : Request.t URL)
  (net : Net) :
  length (calls (worker rev request) net) <= 1.
Proof.
  destruct (startsWith (pathname (Request.url request)) (prefixOf rev)) eqn:H.
  - rewrite (worker_calls rev request net H). simpl. lia.
  - unfold calls.
    destruct rev; cbn [worker prefixOf] in *;
      unfold Worker.fetch, Pages.handleRequest;
      cbn [apiPrefix flyApiConfig templateConfig]; rewrite H; simpl; lia.
Qed.

(** X5.  The rebuilt response of a proxied request, for an upstream answer
    the response constructor accepts, keeps the upstream's status and
    status text; its body is the upstream's body bytes (empty when the
    upstream has no body), except that for status 204, 205 or 304 it is a
    null body. *)
Theorem status_and_body_kept (rev : Revision) (request : Request.t URL)
  (net : Net) (up : Response.t) :
  startsWith (pathname (Request.url request)) (prefixOf rev) = true ->
  net (upstreamRequest rev request) = Some up ->
  passedThrough rev up = false ->
  rebuildable up = true ->
  exists resp,
    result (worker rev request) net = Some resp
    /\ Response.status resp = Response.status up
    /\ Response.statusText resp = Response.statusText up
    /\ Response.body resp
       = (if Response.nullBodyStatus (Response.status up) then None
          else Some (match Response.body up with
                     | Some b => b
                     | None => ""
                     end)).
Proof.
  intros H N P B. eexists. split.
  - rewrite (worker_proxied rev request net up H N), P.
    apply (rebuild_some up request _ B).
  - repeat split.
Qed.

Lemma status_and_body_kept_witness :
  startsWith (pathname (example_com "/fly-api/missing" None))
             (prefixOf FlyApiPages) = true
  /\ answering noContent
       (upstreamRequest FlyApiPages
          (get_request (example_com "/fly-api/missing" None)))
     = Some noContent
  /\ passedThrough FlyApiPages noContent = false
  /\ rebuildable noContent = true
  /\ exists resp,
       result (worker FlyApiPages
                 (get_request (example_com "/fly-api/missing" None)))
              (answering noContent) = Some resp
       /\ Response.status resp = 204%Z
       /\ Response.statusText resp = "No Content"
       /\ Response.body resp = None.
Proof.
  split; [reflexivity|]. split; [reflexivity|]. split; [reflexivity|].
  split; [reflexivity|].
  apply (status_and_body_kept FlyApiPages
           (get_request (example_com "/fly-api/missing" None))
           (answering noContent) noContent); reflexivity.
Defined.

(** X6.  In the rebuilt response of an upstream answer the response
    constructor accepts, a header name other than [Set-Cookie] and the four
    CORS names holds one value, the upstream's values under that name
    joined with a comma and stored without the white space around them,
    when the upstream has the name, and nothing when it has not: repeated
    headers are merged, none is invented. *)
Theorem other_headers_merged (rev : Revision) (request : Request.t URL)
  (net : Net) (up : Response.t) (name : string) :
  startsWith (pathname (Request.url request)) (prefixOf rev) = true ->
  net (upstreamRequest rev request) = Some up ->
  passedThrough rev up = false ->
  rebuildable up = true ->
  Headers.sameName name "Set-Cookie" = false ->
  isCorsName name = false ->
  exists resp,
    result (worker rev request) net = Some resp
    /\ Headers.getAll (Response.headers resp) name
       = (if Headers.has (Response.headers up) name
          then [Headers.normalize
                  (join ", " (Headers.getAll (Response.headers up) name))]
          else [])
    /\ Headers.get (Response.headers resp) name
       = option_map Headers.normalize
                    (Headers.get (Response.headers up) name).
Proof.
  intros H N P B Hc Hn. eexists. split.
  - rewrite (worker_proxied rev request net up H N), P.
    apply (rebuild_some up request _ B).
  - cbn [Response.headers].
    split; [now apply rebuild_other_values | now apply rebuild_other].
Qed.

Lemma other_headers_merged_witness :
  startsWith (pathname (example_com "/fly-api/missing" None))
             (prefixOf FlyApi) = true
  /\ answering repeatedHeader
       (upstreamRequest FlyApi
          (get_request (example_com "/fly-api/missing" None)))
     = Some repeatedHeader
  /\ passedThrough FlyApi repeatedHeader = false
  /\ rebuildable repeatedHeader = true
  /\ Headers.sameName "Vary" "Set-Cookie" = false
  /\ isCorsName "Vary" = false
  /\ exists resp,
       result (worker FlyApi
                 (get_request (example_com "/fly-api/missing" None)))
              (answering repeatedHeader) = Some resp
       /\ Headers.getAll (Response.headers resp) "Vary" = ["Origin, Accept"].
Proof.
  split; [reflexivity|]. split; [reflexivity|]. split; [reflexivity|].
  split; [reflexivity|]. split; [reflexivity|]. split; [reflexivity|].
  destruct (other_headers_merged FlyApi
              (get_request (example_com "/fly-api/missing" None))
              (answering repeatedHeader) repeatedHeader "Vary"
              eq_refl eq_refl eq_refl eq_refl eq_refl eq_refl)
    as (resp & R & G & _).
  exists resp. split; [exact R|]. rewrite G. reflexivity.
Defined.

(** X7.  In the rebuilt response of an upstream answer the response
    constructor accepts (not in a response passed through), every
    [Set-Cookie] value is the rewrite of a non-empty upstream [Set-Cookie]
    value, stored without the white space around it, and the segments that
    rewrite joined hold [Domain=<hostname of the request>], [SameSite=None]
    and [Secure] after the first. *)
Theorem every_cookie_rewritten (rev : Revision) (request : Request.t URL)
  (net : Net) (up : Response.t) :
  startsWith (pathname (Request.url request)) (prefixOf rev) = true ->
  net (upstreamRequest rev request) = Some up ->
  passedThrough rev up = false ->
  rebuildable up = true ->
  exists resp,
    result (worker rev request) net = Some resp
    /\ forall s,
         In s (Headers.getAll (Response.headers resp) "Set-Cookie") ->
         exists cookie,
           In cookie (Headers.getAll (Response.headers up) "Set-Cookie")
           /\ cookie <> ""
           /\ s = Headers.normalize
                    (join "; " (rewrittenParts cookie (Request.url request)))
           /\ In (domainAttr (Request.url request))
                 (tl (rewrittenParts cookie (Request.url request)))
           /\ In "SameSite=None"
                 (tl (rewrittenParts cookie (Request.url request)))
           /\ In "Secure"
                 (tl (rewrittenParts cookie (Request.url request))).
Proof.
  intros H N P B. eexists. split.
  - rewrite (worker_proxied rev request net up H N), P.
    apply (rebuild_some up request _ B).
  - cbn [Response.headers]. intros s Hs. rewrite rebuild_cookies in Hs.
    apply in_map_iff in Hs as (m & <- & Hs).
    apply In_keepSome in Hs as (cookie & Hin & Hm).
    exists cookie. split; [exact Hin|].
    assert (Hc : cookie <> "") by (intros ->; discriminate).
    split; [exact Hc|].
    rewrite (modifyCookie_some _ cookie Hc) in Hm. injection Hm as <-.
    split; [reflexivity|]. apply rewritten_has_three.
Qed.

Lemma every_cookie_rewritten_witness :
  startsWith (pathname (example_com "/fly-api/login" None))
             (prefixOf FlyApiPages) = true
  /\ answering trailingSemicolon
       (upstreamRequest FlyApiPages
          (get_request (example_com "/fly-api/login" None)))
     = Some trailingSemicolon
  /\ passedThrough FlyApiPages trailingSemicolon = false
  /\ rebuildable trailingSemicolon = true
  /\ exists resp,
       result (worker FlyApiPages
                 (get_request (example_com "/fly-api/login" None)))
              (answering trailingSemicolon) = Some resp
       /\ Headers.getAll (Response.headers resp) "Set-Cookie"
          = ["a=b; Domain=example.com; SameSite=None; Secure;"]
       /\ forall s,
            In s (Headers.getAll (Response.headers resp) "Set-Cookie") ->
            exists cookie,
              In cookie (Headers.getAll (Response.headers trailingSemicolon)
                                        "Set-Cookie")
              /\ cookie <> ""
              /\ s = Headers.normalize
                       (join "; "
                          (rewrittenParts cookie
                             (example_com "/fly-api/login" None))).
Proof.
  split; [reflexivity|]. split; [reflexivity|]. split; [reflexivity|].
  split; [reflexivity|].
  destruct (every_cookie_rewritten FlyApiPages
              (get_request (example_com "/fly-api/login" None))
              (answering trailingSemicolon) trailingSemicolon
              eq_refl eq_refl eq_refl eq_refl)
    as (resp & R & A).
  exists resp. split; [exact R|]. split.
  - vm_compute in R. injection R as <-. reflexivity.
  - intros s Hs. destruct (A s Hs) as (cookie & H1 & H2 & H3 & _).
    exists cookie. auto.
Defined.

(** X14.  When the upstream answers a proxied request with a status outside
    200..599 and the answer is not passed through as a redirect, the
    response constructor throws: the handler produces no response, after
    its one upstream call. *)
Theorem refused_status_rejected (rev : Revision) (request : Request.t URL)
  (net : Net) (up : Response.t) :
  startsWith (pathname (Request.url request)) (prefixOf rev) = true ->
  net (upstreamRequest rev request) = Some up ->
  (Response.status up < 200 \/ 599 < Response.status up)%Z ->
  result (worker rev request) net = None
  /\ calls (worker rev request) net = [upstreamRequest rev request].
Proof.
  intros H N S. split; [|now apply worker_calls].
  rewrite (worker_proxied rev request net up H N).
  assert (P : passedThrough rev up = false).
  { destruct rev; try reflexivity. cbn [passedThrough].
    unfold Pages.isRedirect.
    destruct (Response.status up >=? 300)%Z eqn:L;
      destruct (Response.status up <? 400)%Z eqn:U; try reflexivity.
    apply Z.geb_le in L. apply Z.ltb_lt in U. lia. }
  rewrite P. apply rebuild_none. unfold rebuildable.
  destruct (200 <=? Response.status up)%Z eqn:L;
    destruct (Response.status up <=? 599)%Z eqn:U; try reflexivity.
  apply Z.leb_le in L. apply Z.leb_le in U. lia.
Qed.

Lemma refused_status_rejected_witness :
  startsWith (pathname (example_com "/fly-api/socket" None))
             (prefixOf FlyApi) = true
  /\ answering switching
       (upstreamRequest FlyApi
          (get_request (example_com "/fly-api/socket" None)))
     = Some switching
  /\ (Response.status switching < 200 \/ 599 < Response.status switching)%Z
  /\ result (worker FlyApi
               (get_request (example_com "/fly-api/socket" None)))
            (answering switching) = None.
Proof.
  split; [reflexivity|]. split; [reflexivity|].
  split; [left; reflexivity|].
  apply (refused_status_rejected FlyApi
           (get_request (example_com "/fly-api/socket" None))
           (answering switching) switching);
    [reflexivity|reflexivity|left; reflexivity].
Defined.

(** X8.  The response to a proxied request depends on the inbound request
    through its URL only: two requests to the same URL whose upstream calls
    get the same answer get the same response, whatever their methods,
    headers and bodies.  In particular [OPTIONS] is not treated apart. *)
Theorem response_depends_on_url_only (rev : Revision)
  (r1 r2 : Request.t URL) (net : Net) (up : Response.t) :
  Request.url r1 = Request.url r2 ->
  startsWith (pathname (Request.url r1)) (prefixOf rev) = true ->
  net (upstreamRequest rev r1) = Some up ->
  net (upstreamRequest rev r2) = Some up ->
  result (worker rev r1) net = result (worker rev r2) net.
Proof.
  intros U H N1 N2.
  rewrite (worker_proxied rev r1 net up H N1).
  rewrite U in H. rewrite (worker_proxied rev r2 net up H N2).
  now rewrite (rebuild_url_only up r1 r2 _ U), U.
Qed.

Lemma response_depends_on_url_only_witness :
  Request.url (get_request (example_com "/fly-api/data" None))
  = Request.url (post_request (example_com "/fly-api/data" None))
  /\ startsWith (pathname (example_com "/fly-api/data" None))
                (prefixOf FlyApi) = true
  /\ result (worker FlyApi (get_request (example_com "/fly-api/data" None)))
            (answering mockResponse)
     = result (worker FlyApi
                 (post_request (example_com "/fly-api/data" None)))
              (answering mockResponse).
Proof.
  split; [reflexivity|]. split; [reflexivity|].
  apply (response_depends_on_url_only FlyApi
           (get_request (example_com "/fly-api/data" None))
           (post_request (example_com "/fly-api/data" None))
           (answering mockResponse) mockResponse); reflexivity.
Defined.

(** X9.  In the second revision the upstream path of a proxied request is
    what follows the leading [/fly-api]: only that first occurrence is
    removed, so the rest of the path is kept as it is even when it holds
    [/fly-api] again, and the upstream path always starts with a slash. *)
Theorem prefix_removed_once (request : Request.t URL) (net : Net)
  (rest : string) :
  pathname (Request.url request) = ("/fly-api/" ++ rest)%string ->
  map Request.url (calls (Pages.handleRequest request) net)
  = [("https://laclipasa-backend.fly.dev/" ++ rest
      ++ search (Request.url request))%string].
Proof.
  intros E.
  assert (H : startsWith (pathname (Request.url request))
                         (prefixOf FlyApiPages) = true)
    by (rewrite E; reflexivity).
  change (Pages.handleRequest request) with (worker FlyApiPages request).
  rewrite (worker_calls FlyApiPages request net H).
  cbn [map upstreamRequest]. unfold Pages.modifiedRequest.
  cbn [Request.url]. rewrite E.
  change (removeFirst ("/fly-api/" ++ rest) "/fly-api")
    with (String "/" (substring 0 (String.length rest) rest)).
  now rewrite substring_all.
Qed.

Lemma prefix_removed_once_witness :
  pathname (example_com "/fly-api/fly-api/users" (Some "page=2"))
  = ("/fly-api/" ++ "fly-api/users")%string
  /\ map Request.url
       (calls (Pages.handleRequest
                 (get_request
                    (example_com "/fly-api/fly-api/users" (Some "page=2"))))
              unreachable)
     = ["https://laclipasa-backend.fly.dev/fly-api/users?page=2"].
Proof.
  split; [reflexivity|].
  apply (prefix_removed_once
           (get_request (example_com "/fly-api/fly-api/users" (Some "page=2")))
           unreachable "fly-api/users").
  reflexivity.
Defined.

(* ================================================================== *)
(** * Further properties of the cookie rewrite *)

(** X10.  The rewrite drops no segment and adds at most three: the
    segments it joins are at least as many as the input's and at most three
    more, and never fewer than four. *)
Theorem rewritten_length (cookie : string) (url : URL) :
  cookie <> "" ->
  modifyCookie cookie url = Some (join "; " (rewrittenParts cookie url))
  /\ length (cookieParts cookie) <= length (rewrittenParts cookie url)
  /\ length (rewrittenParts cookie url) <= length (cookieParts cookie) + 3
  /\ 4 <= length (rewrittenParts cookie url).
Proof.
  intros H. split; [now apply modifyCookie_some|].
  pose proof (count_rewritten url cookie) as C. cbv zeta in C.
  destruct C as (C1 & C2 & C3).
  pose proof (count_kinds_le (tl (rewrittenParts cookie url))) as K.
  rewrite C1, C2, C3 in K.
  assert (L : length (rewrittenParts cookie url)
              = S (length (tl (rewrittenParts cookie url))))
    by (rewrite rewrittenParts_eq; reflexivity).
  assert (T : length (tl (rewrittenParts cookie url))
              = length (attributes cookie)
                + length (missingParts url (attributes cookie)))
    by (rewrite rewrittenParts_eq; cbn [tl];
        now rewrite length_app, length_map).
  assert (P : length (cookieParts cookie) = S (length (attributes cookie)))
    by (rewrite (cookieParts_split cookie) at 1; reflexivity).
  pose proof (missingParts_length url (attributes cookie)). lia.
Qed.

Lemma rewritten_length_witness :
  "a=b" <> ""
  /\ length (cookieParts "a=b")
     <= length (rewrittenParts "a=b" (example_com "/api/x" None))
  /\ length (rewrittenParts "a=b" (example_com "/api/x" None))
     <= length (cookieParts "a=b") + 3
  /\ 4 <= length (rewrittenParts "a=b" (example_com "/api/x" None)).
Proof.
  split; [discriminate|].
  apply (rewritten_length "a=b" (example_com "/api/x" None)).
  discriminate.
Defined.

(** X11.  A non-empty cookie none of whose attribute segments is
    recognised comes back as its own trimmed segments followed by
    [Domain=<hostname>], [SameSite=None] and [Secure], joined with [; ]. *)
Theorem plain_cookie_extended (cookie : string) (url : URL) :
  cookie <> "" ->
  forallb isOtherPart (attributes cookie) = true ->
  modifyCookie cookie url
  = Some (join "; " (cookieParts cookie
                     ++ [domainAttr url; "SameSite=None"; "Secure"])).
Proof.
  intros H O. rewrite (modifyCookie_some url cookie H), rewrittenParts_eq.
  rewrite (cookieParts_split cookie) at 2.
  rewrite forallb_forall in O.
  assert (M : map (rewriteSeg url) (attributes cookie) = attributes cookie).
  { rewrite <- (map_id (attributes cookie)) at 2. apply map_ext_in.
    intros seg Hs. apply rewriteSeg_other. now apply O. }
  assert (E : forall p, (forall seg, p seg = true -> isOtherPart seg = false) ->
                        existsb p (attributes cookie) = false).
  { intros p Hp. apply not_true_is_false. intros X.
    apply existsb_exists in X as (seg & Hs & Ps).
    specialize (Hp seg Ps). rewrite (O seg Hs) in Hp. discriminate. }
  unfold missingParts. rewrite M, !E; [reflexivity|..];
    intros seg Ps; unfold isOtherPart; rewrite Ps;
    now rewrite ?orb_true_r.
Qed.

Lemma plain_cookie_extended_witness :
  "sid=1 ;Path=/;  HttpOnly" <> ""
  /\ forallb isOtherPart (attributes "sid=1 ;Path=/;  HttpOnly") = true
  /\ modifyCookie "sid=1 ;Path=/;  HttpOnly"
                  (example_com "/fly-api/login" None)
     = Some "sid=1; Path=/; HttpOnly; Domain=example.com; SameSite=None; Secure".
Proof.
  split; [discriminate|]. split; [vm_compute; reflexivity|].
  etransitivity.
  - apply (plain_cookie_extended "sid=1 ;Path=/;  HttpOnly"
             (example_com "/fly-api/login" None));
      [discriminate|vm_compute; reflexivity].
  - vm_compute. reflexivity.
Defined.

(** X12.  For a request URL whose hostname holds no [;] (and does not end
    in white space), the returned string, split at [;] and trimmed, gives
    back the segments the rewrite joined; so its attribute segments hold,
    for each of [Domain=...], [SameSite=...] and bare [Secure], as many
    recognised segments as the input had, and one when it had none. *)
Theorem rewritten_cookie_parses_back (cookie s : string) (url : URL) :
  hostnameSafe (hostname url) = true ->
  modifyCookie cookie url = Some s ->
  cookieParts s = rewrittenParts cookie url
  /\ count isDomainPart (attributes s)
     = Nat.max 1 (count isDomainPart (attributes cookie))
  /\ count isSameSitePart (attributes s)
     = Nat.max 1 (count isSameSitePart (attributes cookie))
  /\ count isSecurePart (attributes s)
     = Nat.max 1 (count isSecurePart (attributes cookie)).
Proof.
  intros Hh Hs.
  assert (Hc : cookie <> "") by (intros ->; discriminate).
  rewrite (modifyCookie_some url cookie Hc) in Hs. injection Hs as <-.
  unfold attributes at 1 3 5.
  rewrite (cookieParts_rewritten url cookie Hh).
  split; [reflexivity|].
  pose proof (count_rewritten url cookie) as C. exact C.
Qed.

Lemma rewritten_cookie_parses_back_witness :
  hostnameSafe (hostname (example_com "/fly-api/login" None)) = true
  /\ modifyCookie "a=b;secure ; Domain=x; SECURE"
                  (example_com "/fly-api/login" None)
     = Some "a=b; Secure; Domain=example.com; Secure; SameSite=None"
  /\ cookieParts "a=b; Secure; Domain=example.com; Secure; SameSite=None"
     = ["a=b"; "Secure"; "Domain=example.com"; "Secure"; "SameSite=None"].
Proof.
  split; [reflexivity|]. split; [reflexivity|].
  apply (rewritten_cookie_parses_back "a=b;secure ; Domain=x; SECURE" _
           (example_com "/fly-api/login" None)); reflexivity.
Defined.

(** X13.  The values the upstream gave to [Domain] and [SameSite] never
    reach the output: two non-empty cookies with the same first segment
    whose attribute segments agree one by one in kind (both [Domain=...],
    both [SameSite=...], both bare [Secure], or the same unrecognised text)
    are rewritten to the same string. *)
Theorem upstream_values_discarded (c1 c2 : string) (url : URL) :
  c1 <> "" -> c2 <> "" ->
  hd "" (cookieParts c1) = hd "" (cookieParts c2) ->
  Forall2 (fun a b => sameKind a b = true) (attributes c1) (attributes c2) ->
  modifyCookie c1 url = modifyCookie c2 url.
Proof.
  intros H1 H2 Hm Hk.
  rewrite (modifyCookie_some url c1 H1), (modifyCookie_some url c2 H2).
  rewrite !rewrittenParts_eq, Hm. unfold missingParts.
  destruct (sameKind_lists url _ _ Hk) as (-> & -> & -> & ->). reflexivity.
Qed.

Lemma upstream_values_discarded_witness :
  "a=b; Path=/; Domain=backend.example; SameSite=Strict" <> ""
  /\ "a=b;Path=/;DOMAIN=other.example;samesite=lax" <> ""
  /\ modifyCookie "a=b; Path=/; Domain=backend.example; SameSite=Strict"
                  (example_com "/api/x" None)
     = modifyCookie "a=b;Path=/;DOMAIN=other.example;samesite=lax"
                    (example_com "/api/x" None).
Proof.
  split; [discriminate|]. split; [discriminate|].
  apply (upstream_values_discarded
           "a=b; Path=/; Domain=backend.example; SameSite=Strict"
           "a=b;Path=/;DOMAIN=other.example;samesite=lax"
           (example_com "/api/x" None));
    [discriminate|discriminate|vm_compute; reflexivity|].
  assert (E1 : attributes "a=b; Path=/; Domain=backend.example; SameSite=Strict"
               = ["Path=/"; "Domain=backend.example"; "SameSite=Strict"])
    by (vm_compute; reflexivity).
  assert (E2 : attributes "a=b;Path=/;DOMAIN=other.example;samesite=lax"
               = ["Path=/"; "DOMAIN=other.example"; "samesite=lax"])
    by (vm_compute; reflexivity).
  rewrite E1, E2.
  repeat (constructor; [vm_compute; reflexivity|]). constructor.
Defined.
